(** * Batch downloader (network_tools/batch_downloader.py)

    A shallow embedding of the [BatchDownloader] class and of the script's
    entry point, followed by the properties established about them.

    Conventions of the model.
    - Python [int] is [Z]; Python [float] (delays, cooldowns, the clock) is
      modelled by exact rationals [Q], so rounding is not represented.  The
      one conversion of an [int] to a [float] that can overflow, in the
      backoff [2 ** retry_count + random.uniform(0, 2)], is modelled with
      the exception it raises.
    - A [dict] is a [gmap], a [set] is a [gset], [bytes] is [list byte].
    - The object's mutable attributes, the file system, the clock and the
      log of externally visible actions are threaded through a state monad.
    - Everything the program cannot decide by itself (network responses,
      random draws, file-system failures) is read from a [World] oracle,
      indexed by the number of oracle consultations made so far.
    - The tasks of a batch are run one after the other, in creation order;
      a semaphore without permits ([max_workers <= 0]) is modelled by the
      way the call then ends ([BatchRaised], [BatchBlocked]).
    - The state file is a field of the state, apart from the downloaded and
      partial files.
    - Functions of the Python standard library that the code calls on
      strings ([urlparse], [unquote], [os.path.basename], [os.path.splitext],
      [str.lower]) are taken as a [PyLib] parameter. *)

From Stdlib Require Import ZArith QArith Qround Qminmax Lia Lqa Sorted.
From stdpp Require Import gmap strings pretty list.

Open Scope Z_scope.

(** ** Data *)

Abbreviation bytes := (list Byte.byte).
Abbreviation Headers := (gmap string string).

(** The attributes fixed by [BatchDownloader.__init__]. *)
Record Config := {
  output_dir : string;
  max_workers : Z;
  chunk_size : Z;
  max_retries : Z;
  headers : Headers;
  resume : bool;
  overwrite : bool;
  default_suffix : option string;
  force_suffix : bool;
  filename_map : gmap string string;
  random_delay : bool;
  min_delay : Q;
  max_delay : Q;
  continue_from_state : bool;
  use_tqdm : bool
}.

(** [self.stats]. *)
Record Stats := {
  successful : Z;
  failed : Z;
  skipped : Z;
  total_bytes : Z;
  start_time : Q;
  end_time : Q;
  completed_urls : gset string
}.

(** A tqdm progress bar: its [total] and its counter [n]. *)
Record PBar := { pb_total : Z; pb_n : Z }.

(** What [_save_state] writes to the state file. *)
Record SavedState := {
  sv_timestamp : Q;
  sv_completed_urls : gset string;
  sv_successful : Z;
  sv_failed : Z;
  sv_skipped : Z;
  sv_total_bytes : Z
}.

(** Externally visible actions, in the order they happen. *)
Inductive Event :=
| EvHead (url : string)
| EvProbeGet (url : string)
| EvStreamGet (url : string) (hdrs : Headers)
| EvSleep (seconds : Q).

Record State := {
  stats : Stats;
  domain_cooldown : gmap string (Q * Q);
  progress_bars : gmap string PBar;
  files : gmap string bytes;
  state_file : option SavedState;
  clock : Q;
  tick : nat;
  trace : list Event
}.

(** Exceptions the network client raises. *)
Inductive NetError :=
| RequestError
| HTTPStatusError (status_code : Z)
| OtherError.

(** Result of a metadata request ([client.head], or the streamed GET of
    [fetch_file_size]) together with [raise_for_status]: [None] when an
    exception was raised.  [Content-Length] is [None] when the header is
    absent, empty or not an integer literal. *)
Record MetaResponse := {
  m_error : option NetError;
  m_content_length : option Z;
  m_content_type : option string
}.

(** Result of the streamed GET of [download_file]: an exception raised when
    the stream is opened or by [raise_for_status]; otherwise the
    [Content-Length] header, the chunks yielded by [aiter_bytes] (each with
    the time it took to arrive) and the exception, if any, that ends the
    iteration early. *)
Record Response := {
  r_error : option NetError;
  r_content_length : option Z;
  r_chunks : list (Q * bytes);
  r_abort : option NetError
}.

Record World := {
  w_head : nat -> string -> MetaResponse;
  w_probe : nat -> string -> MetaResponse;
  w_stream : nat -> string -> Headers -> Response;
  w_random : nat -> Q;
  w_choice : nat -> nat;
  w_rename_ok : nat -> bool;
  w_copy_ok : nat -> bool;
  w_remove_ok : nat -> bool;
  w_save_ok : nat -> bool;
  w_init_ok : bool
}.

(** [urlparse] result: the three components the code reads. *)
Record ParsedUrl := { scheme : string; netloc : string; path : string }.

Record PyLib := {
  urlparse : string -> option ParsedUrl;
  unquote : string -> string;
  basename : string -> string;
  splitext : string -> string * string;
  lower : string -> string
}.

(** ** The state monad *)

Definition M (A : Type) : Type := State -> A * State.

Definition ret {A} (a : A) : M A := fun s => (a, s).
Definition bind {A B} (m : M A) (k : A -> M B) : M B :=
  fun s => let (a, s') := m s in k a s'.

Declare Scope m_scope.
Delimit Scope m_scope with M.
Notation "x <- c ;; k" := (bind c (fun x => k))
  (at level 100, c at level 99, right associativity) : m_scope.
Notation "c ;;; k" := (bind c (fun _ => k))
  (at level 100, right associativity) : m_scope.
Open Scope m_scope.

Definition get : M State := fun s => (s, s).
Definition gets {A} (f : State -> A) : M A := fun s => (f s, s).
Definition modify (f : State -> State) : M unit := fun s => (tt, f s).

Definition set_stats (f : Stats -> Stats) (s : State) : State :=
  {| stats := f (stats s); domain_cooldown := domain_cooldown s;
     progress_bars := progress_bars s; files := files s;
     state_file := state_file s; clock := clock s; tick := tick s;
     trace := trace s |}.
Definition set_domain_cooldown (f : gmap string (Q * Q) -> gmap string (Q * Q))
    (s : State) : State :=
  {| stats := stats s; domain_cooldown := f (domain_cooldown s);
     progress_bars := progress_bars s; files := files s;
     state_file := state_file s; clock := clock s; tick := tick s;
     trace := trace s |}.
Definition set_progress_bars (f : gmap string PBar -> gmap string PBar)
    (s : State) : State :=
  {| stats := stats s; domain_cooldown := domain_cooldown s;
     progress_bars := f (progress_bars s); files := files s;
     state_file := state_file s; clock := clock s; tick := tick s;
     trace := trace s |}.
Definition set_files (f : gmap string bytes -> gmap string bytes)
    (s : State) : State :=
  {| stats := stats s; domain_cooldown := domain_cooldown s;
     progress_bars := progress_bars s; files := f (files s);
     state_file := state_file s; clock := clock s; tick := tick s;
     trace := trace s |}.
Definition set_state_file (v : option SavedState) (s : State) : State :=
  {| stats := stats s; domain_cooldown := domain_cooldown s;
     progress_bars := progress_bars s; files := files s;
     state_file := v; clock := clock s; tick := tick s;
     trace := trace s |}.
Definition set_clock (f : Q -> Q) (s : State) : State :=
  {| stats := stats s; domain_cooldown := domain_cooldown s;
     progress_bars := progress_bars s; files := files s;
     state_file := state_file s; clock := f (clock s); tick := tick s;
     trace := trace s |}.
Definition next_tick (s : State) : State :=
  {| stats := stats s; domain_cooldown := domain_cooldown s;
     progress_bars := progress_bars s; files := files s;
     state_file := state_file s; clock := clock s; tick := S (tick s);
     trace := trace s |}.
Definition log_event (e : Event) (s : State) : State :=
  {| stats := stats s; domain_cooldown := domain_cooldown s;
     progress_bars := progress_bars s; files := files s;
     state_file := state_file s; clock := clock s; tick := tick s;
     trace := trace s ++ [e] |}.

(** ** Python helpers *)

(** Truth value of an optional string: [None] and [""] are false. *)
Definition truthy (o : option string) : bool :=
  match o with
  | Some s => negb (String.eqb s "")
  | None => false
  end.

Definition Qltb (x y : Q) : bool := negb (Qle_bool y x).

(** [str.startswith]. *)
Definition startswith (s p : string) : bool := String.prefix p s.

(** [Path / name] and [Path.with_suffix(suffix + ".part")], on POSIX paths
    whose name is not empty. *)
Definition path_join (dir name : string) : string := dir +:+ "/" +:+ name.
Definition part_path (file_path : string) : string := file_path +:+ ".part".

Definition MiB : Z := 1024 * 1024.

(** ** Progress bars *)

Definition pbar_update (n : Z) (b : PBar) : PBar :=
  {| pb_total := pb_total b; pb_n := pb_n b + n |}.

Definition create_bar (use : bool) (url : string) (total_size : Z)
    (bars : gmap string PBar) : gmap string PBar :=
  if negb use then bars
  else
    let total_size := Z.max total_size 1024 in
    <[url := {| pb_total := total_size; pb_n := 0 |}]> bars.

Definition update_bar (use : bool) (url : string) (n : Z) (total : option Z)
    (bars : gmap string PBar) : gmap string PBar :=
  if negb use then bars
  else
    match bars !! url with
    | None => bars
    | Some pbar =>
        let pbar :=
          match total with
          | Some t =>
              if 0 <? t
              then {| pb_total := Z.max (pb_total pbar) t; pb_n := pb_n pbar |}
              else pbar
          | None => pbar
          end in
        <[url := pbar_update n pbar]> bars
    end.

Definition close_bar (use : bool) (url : string) (success : bool)
    (bars : gmap string PBar) : gmap string PBar :=
  if negb use then bars
  else
    match bars !! url with
    | None => bars
    | Some _ => delete url bars
    end.

Section Downloader.

Variable lib : PyLib.
Variable w : World.
Variable cfg : Config.

(** ** Primitive actions *)

Definition time_time : M Q := gets clock.

(** [asyncio.sleep]: a delay that is not positive does not wait. *)
Definition sleep (d : Q) : M unit :=
  modify (fun s => log_event (EvSleep d) (set_clock (fun c => c + Qmax d 0)%Q s)).

Definition consult {A} (f : nat -> A) : M A :=
  fun s => (f (tick s), next_tick s).

(** [random.uniform a b] is [a + (b - a) * random()]. *)
Definition random_uniform (a b : Q) : M Q :=
  u <- consult (w_random w) ;; ret (a + (b - a) * u)%Q.

Definition random_choice (l : list string) : M string :=
  i <- consult (w_choice w) ;; ret (nth (i mod length l)%nat l "").

Definition _create_progress_bar (url filename : string) (total_size : Z) : M unit :=
  modify (set_progress_bars (create_bar (use_tqdm cfg) url total_size)).

Definition _update_progress_bar (url : string) (n : Z) (total : option Z) : M unit :=
  modify (set_progress_bars (update_bar (use_tqdm cfg) url n total)).

Definition _close_progress_bar (url : string) (success : bool) : M unit :=
  modify (set_progress_bars (close_bar (use_tqdm cfg) url success)).

Definition _cleanup_progress_bars : M unit :=
  if use_tqdm cfg then modify (set_progress_bars (fun _ => ∅)) else ret tt.

(** ** URL validation *)

Definition _validate_url (url : string) : bool :=
  match urlparse lib url with
  | None => false
  | Some result =>
      (String.eqb (scheme result) "http" || String.eqb (scheme result) "https")
      && negb (String.eqb (netloc result) "")
  end.

(** ** Request headers *)

Definition user_agents : list string :=
  [ "Mozilla/5.0 (Windows NT 10.0; Win64; x64) AppleWebKit/537.36 (KHTML, like Gecko) Chrome/120.0.0.0 Safari/537.36";
    "Mozilla/5.0 (Windows NT 10.0; Win64; x64) AppleWebKit/537.36 (KHTML, like Gecko) Chrome/119.0.0.0 Safari/537.36";
    "Mozilla/5.0 (Windows NT 10.0; Win64; x64; rv:109.0) Gecko/20100101 Firefox/119.0";
    "Mozilla/5.0 (Macintosh; Intel Mac OS X 10_15_7) AppleWebKit/605.1.15 (KHTML, like Gecko) Version/16.6 Safari/605.1.15" ].

Definition set_default (k v : string) (h : Headers) : Headers :=
  match h !! k with
  | Some _ => h
  | None => <[k := v]> h
  end.

(** [download_file] parses a URL again only after [_validate_url] accepted
    it, so [urlparse] has already returned for it; the components default to
    empty strings otherwise. *)
Definition parsed (url : string) : ParsedUrl :=
  default {| scheme := ""; netloc := ""; path := "" |} (urlparse lib url).

Definition referer_of (url : string) : string :=
  let parsed_url := parsed url in
  scheme parsed_url +:+ "://" +:+ netloc parsed_url.

Definition _enhance_headers (url : string) : M Headers :=
  let enhanced_headers := headers cfg in
  enhanced_headers <-
    match enhanced_headers !! "User-Agent" with
    | Some _ => ret enhanced_headers
    | None =>
        ua <- random_choice user_agents ;;
        ret (<["User-Agent" := ua]> enhanced_headers)
    end ;;
  let enhanced_headers := set_default "Accept" "*/*" enhanced_headers in
  let enhanced_headers := set_default "Accept-Language" "en-US,en;q=0.9" enhanced_headers in
  let enhanced_headers := set_default "Accept-Encoding" "gzip, deflate, br" enhanced_headers in
  let enhanced_headers := set_default "Referer" (referer_of url) enhanced_headers in
  ret enhanced_headers.

Definition _get_resume_header (url file_path : string) : M Headers :=
  fs <- gets files ;;
  let headers := headers cfg in
  match fs !! file_path with
  | Some content =>
      if negb (resume cfg) then ret headers
      else
        let file_size := Z.of_nat (length content) in
        if 0 <? file_size
        then ret (<["Range" := "bytes=" +:+ pretty file_size +:+ "-"]> headers)
        else ret headers
  | None => ret headers
  end.

(** ** Persisted state *)

(** The state file of this downloader ([self.state_file]) is kept in the
    field [state_file], apart from [files], which holds the downloaded and
    partial files only: its path is taken to differ from theirs, and its
    JSON encoding is not modelled.  A write that fails is one whose [open]
    raises, which leaves the previous content. *)
Definition _save_state : M unit :=
  ok <- consult (w_save_ok w) ;;
  if ok then
    now <- time_time ;;
    st <- gets stats ;;
    modify (set_state_file (Some
      {| sv_timestamp := now;
         sv_completed_urls := completed_urls st;
         sv_successful := successful st;
         sv_failed := failed st;
         sv_skipped := skipped st;
         sv_total_bytes := total_bytes st |}))
  else ret tt.

(** ** Origin throttle *)

Definition growth_factor : Q := 12 # 10.
Definition cooldown_cap : Q := 30.

Definition _check_domain_cooldown (url : string) : M unit :=
  match urlparse lib url with
  | None => ret tt
  | Some parsed =>
      let domain := netloc parsed in
      dc <- gets domain_cooldown ;;
      match dc !! domain with
      | Some (last_access, cooldown) =>
          current_time <- time_time ;;
          let elapsed := (current_time - last_access)%Q in
          if Qltb elapsed cooldown
          then sleep (cooldown - elapsed)%Q
          else ret tt
      | None => ret tt
      end ;;;
      base_cooldown <-
        random_uniform (if random_delay cfg then min_delay cfg else 0)
                       (if random_delay cfg then max_delay cfg else 1 # 2) ;;
      dc <- gets domain_cooldown ;;
      let cooldown :=
        match dc !! domain with
        | Some (_, prev_cooldown) => Qmin (prev_cooldown * growth_factor) cooldown_cap
        | None => base_cooldown
        end in
      now <- time_time ;;
      modify (set_domain_cooldown (<[domain := (now, cooldown)]>))
  end.

(** ** Metadata probes *)

Definition request_head (url : string) : M MetaResponse :=
  modify (log_event (EvHead url)) ;;; consult (fun n => w_head w n url).

Definition request_probe (url : string) : M MetaResponse :=
  modify (log_event (EvProbeGet url)) ;;; consult (fun n => w_probe w n url).

(** [fetch_file_size]: HEAD first, then a streamed GET read for its headers
    only, then the 1 MiB placeholder. *)
Definition fetch_file_size (url : string) : M Z :=
  headers <- _enhance_headers url ;;
  response <- request_head url ;;
  match m_error response, m_content_length response with
  | None, Some size => ret (Z.max size 1024)
  | _, _ =>
      response <- request_probe url ;;
      match m_error response, m_content_length response with
      | None, Some size => ret (Z.max size 1024)
      | _, _ => ret MiB
      end
  end.

Definition fetch_content_type (url : string) : M (option string) :=
  headers <- _enhance_headers url ;;
  response <- request_head url ;;
  match m_error response with
  | None => ret (m_content_type response)
  | Some _ => ret None
  end.

Definition mime_to_ext : list (string * string) :=
  [ ("text/plain", ".txt"); ("text/html", ".html"); ("text/css", ".css");
    ("text/javascript", ".js"); ("text/csv", ".csv"); ("text/xml", ".xml");
    ("image/jpeg", ".jpg"); ("image/png", ".png"); ("image/gif", ".gif");
    ("image/bmp", ".bmp"); ("image/webp", ".webp"); ("image/svg+xml", ".svg");
    ("audio/mpeg", ".mp3"); ("audio/wav", ".wav"); ("audio/ogg", ".ogg");
    ("video/mp4", ".mp4"); ("video/mpeg", ".mpeg"); ("video/quicktime", ".mov");
    ("video/x-msvideo", ".avi"); ("video/webm", ".webm");
    ("application/pdf", ".pdf"); ("application/json", ".json");
    ("application/zip", ".zip"); ("application/x-rar-compressed", ".rar");
    ("application/x-tar", ".tar"); ("application/x-gzip", ".gz");
    ("application/msword", ".doc");
    ("application/vnd.openxmlformats-officedocument.wordprocessingml.document", ".docx");
    ("application/vnd.ms-excel", ".xls");
    ("application/vnd.openxmlformats-officedocument.spreadsheetml.sheet", ".xlsx");
    ("application/vnd.ms-powerpoint", ".ppt");
    ("application/vnd.openxmlformats-officedocument.presentationml.presentation", ".pptx");
    ("application/x-bittorrent", ".torrent") ].

Definition _get_extension_from_content_type (content_type : string) : option string :=
  let content_type := lower lib content_type in
  snd <$> List.find (fun '(mime, _) => startswith content_type mime) mime_to_ext.

(** ** File names *)

(** [int(x)] on a float truncates towards zero. *)
Definition int_of_float (x : Q) : Z :=
  if Qle_bool 0 x then Qfloor x else Qceiling x.

Definition dotted (suffix : string) : string :=
  if startswith suffix "." then suffix else "." +:+ suffix.

Definition _get_filename_from_url (url : string) : M string :=
  match filename_map cfg !! url with
  | Some name => ret name
  | None =>
      let parsed_url := parsed url in
      let path := unquote lib (path parsed_url) in
      let filename := basename lib path in
      filename <-
        (if String.eqb filename "" then
           now <- time_time ;;
           ret (netloc parsed_url +:+ "_" +:+ pretty (int_of_float now))
         else ret filename) ;;
      let filename :=
        if force_suffix cfg && truthy (default_suffix cfg)
        then fst (splitext lib filename) else filename in
      let filename :=
        match default_suffix cfg with
        | Some suffix =>
            if truthy (default_suffix cfg)
               && (String.eqb (snd (splitext lib filename)) "" || force_suffix cfg)
            then filename +:+ dotted suffix
            else filename
        | None => filename
        end in
      ret filename
  end.

(** Lines 537-560 of [download_file]: the name the file is saved under. *)
Definition resolve_filename (url : string) (filename : option string) : M string :=
  filename <-
    match filename with
    | None => _get_filename_from_url url
    | Some filename =>
        match default_suffix cfg with
        | Some suffix =>
            if force_suffix cfg && truthy (default_suffix cfg)
            then ret (fst (splitext lib filename) +:+ dotted suffix)
            else ret filename
        | None => ret filename
        end
    end ;;
  if String.eqb (snd (splitext lib filename)) "" && negb (force_suffix cfg) then
    content_type <- fetch_content_type url ;;
    let filename :=
      if truthy content_type then
        match _get_extension_from_content_type (default "" content_type) with
        | Some ext => filename +:+ ext
        | None => filename
        end
      else filename in
    match default_suffix cfg with
    | Some suffix =>
        if String.eqb (snd (splitext lib filename)) "" && truthy (default_suffix cfg)
        then ret (filename +:+ dotted suffix)
        else ret filename
    | None => ret filename
    end
  else ret filename.

(** ** The transfer unit: [download_file] *)

(** The tuple [download_file] returns: success, path, byte count. *)
Definition Outcome : Type := bool * string * Z.

Inductive Mode := WB | AB.

(** Local variables of [download_file] that live across the retry loop. *)
Record Locals := {
  file_path : string;
  temp_path : string;
  downloaded_bytes : Z;
  retry_count : Z;
  mode : Mode;
  file_size : Z
}.

Definition add_successful (st : Stats) : Stats :=
  {| successful := successful st + 1; failed := failed st; skipped := skipped st;
     total_bytes := total_bytes st; start_time := start_time st;
     end_time := end_time st; completed_urls := completed_urls st |}.
Definition add_failed (st : Stats) : Stats :=
  {| successful := successful st; failed := failed st + 1; skipped := skipped st;
     total_bytes := total_bytes st; start_time := start_time st;
     end_time := end_time st; completed_urls := completed_urls st |}.
Definition add_skipped (st : Stats) : Stats :=
  {| successful := successful st; failed := failed st; skipped := skipped st + 1;
     total_bytes := total_bytes st; start_time := start_time st;
     end_time := end_time st; completed_urls := completed_urls st |}.
Definition add_total_bytes (n : Z) (st : Stats) : Stats :=
  {| successful := successful st; failed := failed st; skipped := skipped st;
     total_bytes := total_bytes st + n; start_time := start_time st;
     end_time := end_time st; completed_urls := completed_urls st |}.
Definition add_completed (url : string) (st : Stats) : Stats :=
  {| successful := successful st; failed := failed st; skipped := skipped st;
     total_bytes := total_bytes st; start_time := start_time st;
     end_time := end_time st; completed_urls := {[url]} ∪ completed_urls st |}.

(** [Path.rename]: the oracle says whether the call raises. *)
Definition move_file (src dst : string) (fs : gmap string bytes) : gmap string bytes :=
  match fs !! src with
  | Some content => <[dst := content]> (delete src fs)
  | None => fs
  end.
Definition copy_file (src dst : string) (fs : gmap string bytes) : gmap string bytes :=
  match fs !! src with
  | Some content => <[dst := content]> fs
  | None => fs
  end.

Definition rename (src dst : string) : M bool :=
  ok <- consult (w_rename_ok w) ;;
  if ok then modify (set_files (move_file src dst)) ;;; ret true
  else ret false.

(** The fallback [shutil.copy2] followed by [os.remove]; [false] when one
    of the two raises. *)
Definition copy_then_remove (src dst : string) : M bool :=
  copied <- consult (w_copy_ok w) ;;
  if copied then
    modify (set_files (copy_file src dst)) ;;;
    removed <- consult (w_remove_ok w) ;;
    if removed then modify (set_files (delete src)) ;;; ret true
    else ret false
  else ret false.

(** [open(temp_path, mode)]: ["wb"] truncates, ["ab"] keeps the content. *)
Definition open_file (p : string) (m : Mode) (fs : gmap string bytes) : gmap string bytes :=
  match m with
  | WB => <[p := []]> fs
  | AB => <[p := default [] (fs !! p)]> fs
  end.
Definition write_file (p : string) (chunk : bytes) (fs : gmap string bytes)
    : gmap string bytes :=
  <[p := default [] (fs !! p) ++ chunk]> fs.

(** Lines 520-570: the throttle gate, the optional random delay, and the
    name the file is saved under. *)
Definition locate_file (url : string) (filename : option string) : M string :=
  _check_domain_cooldown url ;;;
  (if random_delay cfg then
     delay <- random_uniform (min_delay cfg) (max_delay cfg) ;;
     sleep delay
   else ret tt) ;;;
  resolve_filename url filename.

(** Everything [download_file] does before its retry loop, after the URL was
    validated: either the function returns ([inl]) or the loop is entered
    with the given locals ([inr]). *)
Definition prepare (url : string) (filename : option string)
    (update_progress : bool) : M (Outcome + Locals) :=
  st <- gets stats ;;
  if bool_decide (url ∈ completed_urls st) then
    modify (set_stats add_skipped) ;;;
    name <- (if truthy filename then ret (default "" filename)
             else _get_filename_from_url url) ;;
    ret (inl (true, path_join (output_dir cfg) name, 0))
  else
    filename <- locate_file url filename ;;
    let file_path := path_join (output_dir cfg) filename in
    let temp_path := part_path file_path in
    let downloaded_bytes := 0 in
    let retry_count := 0 in
    fs <- gets files ;;
    let mode := if resume cfg && bool_decide (is_Some (fs !! temp_path)) then AB else WB in
    if bool_decide (is_Some (fs !! file_path)) && negb (overwrite cfg) then
      modify (set_stats add_skipped) ;;;
      modify (set_stats (add_completed url)) ;;;
      _save_state ;;;
      ret (inl (true, file_path, 0))
    else
      file_size <- fetch_file_size url ;;
      let file_size := if file_size <=? 0 then MiB else file_size in
      bars <- gets progress_bars ;;
      (if update_progress && use_tqdm cfg && negb (bool_decide (is_Some (bars !! url)))
       then _create_progress_bar url filename file_size else ret tt) ;;;
      fs <- gets files ;;
      match fs !! temp_path with
      | Some content =>
          if resume cfg then
            let downloaded_bytes := Z.of_nat (length content) in
            (if update_progress && use_tqdm cfg
             then _update_progress_bar url downloaded_bytes None else ret tt) ;;;
            if negb (file_size =? 0) && (file_size <=? downloaded_bytes) then
              renamed <- rename temp_path file_path ;;
              if renamed then
                (if update_progress && use_tqdm cfg
                 then _close_progress_bar url true else ret tt) ;;;
                modify (set_stats add_successful) ;;;
                modify (set_stats (add_completed url)) ;;;
                _save_state ;;;
                ret (inl (true, file_path, file_size))
              else
                ret (inr {| file_path := file_path; temp_path := temp_path;
                            downloaded_bytes := 0; retry_count := retry_count;
                            mode := WB; file_size := file_size |})
            else
              ret (inr {| file_path := file_path; temp_path := temp_path;
                          downloaded_bytes := downloaded_bytes;
                          retry_count := retry_count;
                          mode := mode; file_size := file_size |})
          else
            ret (inr {| file_path := file_path; temp_path := temp_path;
                        downloaded_bytes := downloaded_bytes;
                        retry_count := retry_count;
                        mode := mode; file_size := file_size |})
      | None =>
          ret (inr {| file_path := file_path; temp_path := temp_path;
                      downloaded_bytes := downloaded_bytes;
                      retry_count := retry_count;
                      mode := mode; file_size := file_size |})
      end.

Definition with_retry (l : Locals) (retry_count : Z) : Locals :=
  {| file_path := file_path l; temp_path := temp_path l;
     downloaded_bytes := downloaded_bytes l; retry_count := retry_count;
     mode := mode l; file_size := file_size l |}.
Definition with_progress (l : Locals) (downloaded_bytes : Z) (m : Mode)
    (file_size : Z) : Locals :=
  {| file_path := file_path l; temp_path := temp_path l;
     downloaded_bytes := downloaded_bytes; retry_count := retry_count l;
     mode := m; file_size := file_size |}.

(** The [async for chunk in response.aiter_bytes(...)] loop: returns the
    updated [downloaded_bytes]. *)
Fixpoint write_chunks (url : string) (update_progress : bool) (temp_path : string)
    (chunks : list (Q * bytes)) (downloaded_bytes : Z) (last_update : Q) : M Z :=
  match chunks with
  | [] => ret downloaded_bytes
  | (dt, chunk) :: chunks =>
      modify (set_clock (fun c => c + Qmax dt 0)%Q) ;;;
      match chunk with
      | [] => write_chunks url update_progress temp_path chunks downloaded_bytes last_update
      | _ :: _ =>
          modify (set_files (write_file temp_path chunk)) ;;;
          let chunk_size := Z.of_nat (length chunk) in
          let downloaded_bytes := downloaded_bytes + chunk_size in
          modify (set_stats (add_total_bytes chunk_size)) ;;;
          current_time <- time_time ;;
          if update_progress && use_tqdm cfg && Qltb (2 # 10) (current_time - last_update)
          then
            _update_progress_bar url chunk_size None ;;;
            write_chunks url update_progress temp_path chunks downloaded_bytes current_time
          else
            write_chunks url update_progress temp_path chunks downloaded_bytes last_update
      end
  end.

(** Result of one pass through the body of the retry loop. *)
Inductive Step :=
| Return (o : Outcome)
| Continue (l : Locals).

Definition is_policy_rejection (e : NetError) : bool :=
  match e with
  | HTTPStatusError code => (code =? 403) || (code =? 429)
  | _ => false
  end.

(** The backoff before retry number [retry_count], for the draw [r] of
    [random.uniform(0, 2)]. *)
Definition backoff_delay (retry_count : Z) (r : Q) : Q :=
  (inject_Z (2 ^ retry_count) + r)%Q.

(** [2 ** retry_count] is an [int]; adding the float drawn by
    [random.uniform] converts it to a float first, which raises
    [OverflowError] from [2 ** 1024] on. *)
Definition float_overflow_exponent : Z := 1024.

(** The two [except] clauses of the retry loop.  They differ only in the
    cooldown escalation, which applies to an [HTTPStatusError] 403 or 429.
    When the delay cannot be computed, the [OverflowError] leaves the loop
    and the handler at the end of [download_file] (lines 779-788) ends the
    job. *)
Definition handle_error (url : string) (update_progress : bool) (e : NetError)
    (l : Locals) : M Step :=
  let retry_count := retry_count l + 1 in
  (if is_policy_rejection e then
     let domain := netloc (parsed url) in
     now <- time_time ;;
     modify (set_domain_cooldown
               (<[domain := (now, inject_Z (Z.min (30 + retry_count * 10) 300))]>))
   else ret tt) ;;;
  if max_retries cfg <? retry_count then
    modify (set_stats add_failed) ;;;
    (if update_progress && use_tqdm cfg
     then _close_progress_bar url false else ret tt) ;;;
    ret (Return (false, file_path l, downloaded_bytes l))
  else
    r <- random_uniform 0 2 ;;
    if float_overflow_exponent <=? retry_count then
      modify (set_stats add_failed) ;;;
      (if update_progress && use_tqdm cfg
       then _close_progress_bar url false else ret tt) ;;;
      ret (Return (false, "", 0))
    else
      let delay := backoff_delay retry_count r in
      sleep delay ;;;
      ret (Continue (with_retry l retry_count)).

(** The total size learnt from the response of the streamed GET (lines
    644-663). *)
Definition learn_file_size (content_length : option Z) (downloaded_bytes file_size : Z)
    : Z :=
  match content_length with
  | Some total => if 0 <? total then total + downloaded_bytes else file_size
  | None => file_size
  end.

(** Lines 632-641: the headers and the streamed GET.  The headers computed
    by [_get_resume_header] are replaced by those of [_enhance_headers]
    before the request is sent. *)
Definition send_request (url : string) (l : Locals) : M Response :=
  headers <- _get_resume_header url (temp_path l) ;;
  headers <- _enhance_headers url ;;
  modify (log_event (EvStreamGet url headers)) ;;;
  consult (fun n => w_stream w n url headers).

(** Lines 644-695: the size update, then the chunks written to the partial
    file.  Returns the new [file_size] and [downloaded_bytes]. *)
Definition receive_body (url : string) (update_progress : bool) (l : Locals)
    (response : Response) : M (Z * Z) :=
  let file_size :=
    learn_file_size (r_content_length response) (downloaded_bytes l) (file_size l) in
  (match r_content_length response with
   | Some total =>
       if (0 <? total) && update_progress && use_tqdm cfg
       then _update_progress_bar url 0 (Some file_size) else ret tt
   | None => ret tt
   end) ;;;
  file_size <-
    (if file_size <=? 0 then
       (if update_progress && use_tqdm cfg
        then _update_progress_bar url 0 (Some 1024) else ret tt) ;;;
       ret 1024
     else ret file_size) ;;
  modify (set_files (open_file (temp_path l) (mode l))) ;;;
  last_update <- time_time ;;
  downloaded_bytes <-
    write_chunks url update_progress (temp_path l) (r_chunks response)
                 (downloaded_bytes l) last_update ;;
  ret (file_size, downloaded_bytes).

(** Lines 697-723: the partial file becomes the final file. *)
Definition finish_download (url : string) (update_progress : bool) (l : Locals)
    (downloaded_bytes : Z) : M Step :=
  renamed <- rename (temp_path l) (file_path l) ;;
  moved <- (if renamed then ret true
            else copy_then_remove (temp_path l) (file_path l)) ;;
  if moved then
    (if update_progress && use_tqdm cfg
     then _close_progress_bar url true else ret tt) ;;;
    modify (set_stats add_successful) ;;;
    modify (set_stats (add_completed url)) ;;;
    _save_state ;;;
    ret (Return (true, file_path l, downloaded_bytes))
  else
    ret (Return (true, temp_path l, downloaded_bytes)).

(** One pass through the body of [while retry_count <= self.max_retries]. *)
Definition attempt (url : string) (update_progress : bool) (l : Locals) : M Step :=
  response <- send_request url l ;;
  match r_error response with
  | Some e => handle_error url update_progress e l
  | None =>
      sizes <- receive_body url update_progress l response ;;
      let '(file_size, downloaded_bytes) := sizes in
      match r_abort response with
      | Some e =>
          handle_error url update_progress e (with_progress l downloaded_bytes AB file_size)
      | None => finish_download url update_progress l downloaded_bytes
      end
  end.

(** The retry loop.  Each pass either returns or increases [retry_count], so
    [max_retries + 1 - retry_count] passes are enough; [None] is Python's
    implicit [return None] when the loop condition fails. *)
Fixpoint stream_loop (fuel : nat) (url : string) (update_progress : bool)
    (l : Locals) : M (option Outcome) :=
  if retry_count l <=? max_retries cfg then
    match fuel with
    | O => ret None
    | S fuel =>
        step <- attempt url update_progress l ;;
        match step with
        | Return o => ret (Some o)
        | Continue l => stream_loop fuel url update_progress l
        end
    end
  else ret None.

Definition download_file (url : string) (filename : option string)
    (update_progress : bool) : M (option Outcome) :=
  if negb (_validate_url url) then
    modify (set_stats add_failed) ;;;
    ret (Some (false, "", 0))
  else
    start <- prepare url filename update_progress ;;
    match start with
    | inl o => ret (Some o)
    | inr l =>
        stream_loop (Z.to_nat (max_retries cfg + 1 - retry_count l))
                    url update_progress l
    end.

(** ** The orchestrator: [download_batch] *)

(** Truth value of an optional list: [None] and [[]] are false. *)
Definition truthy_list {A} (o : option (list A)) : bool :=
  match o with
  | Some (_ :: _) => true
  | _ => false
  end.

(** The two filtering loops of [download_batch]: the URLs that satisfy
    [keep], and the entries of [filenames] at their positions. *)
Definition select (keep : string -> bool) (urls : list string)
    (filenames : option (list string)) : list string * list string :=
  let kept := List.filter (fun '(_, url) => keep url) (imap (fun i url => (i, url)) urls) in
  (snd <$> kept,
   omap (fun '(i, _) => if truthy_list filenames then default [] filenames !! i else None)
        kept).

Definition reset_stats (st : Stats) : Stats :=
  {| successful := 0; failed := 0; skipped := 0; total_bytes := 0;
     start_time := start_time st; end_time := end_time st; completed_urls := ∅ |}.
Definition set_start_time (t : Q) (st : Stats) : Stats :=
  {| successful := successful st; failed := failed st; skipped := skipped st;
     total_bytes := total_bytes st; start_time := t;
     end_time := end_time st; completed_urls := completed_urls st |}.
Definition set_end_time (t : Q) (st : Stats) : Stats :=
  {| successful := successful st; failed := failed st; skipped := skipped st;
     total_bytes := total_bytes st; start_time := start_time st;
     end_time := t; completed_urls := completed_urls st |}.

(** What a task hands to the aggregation loop. *)
Definition TaskResult : Type := string * bool * string * Z.

(** [limited_download]: unpacking a [None] result raises, which the task
    catches and reports as a failure. *)
Definition limited_download (url : string) (file_name : option string) : M TaskResult :=
  r <- download_file url file_name true ;;
  match r with
  | Some (success, file_path, downloaded_bytes) =>
      ret (url, success, file_path, downloaded_bytes)
  | None =>
      modify (set_stats add_failed) ;;;
      _close_progress_bar url false ;;;
      ret (url, false, "", 0)
  end.

(** The body of the aggregation loop on [results]. *)
Definition collect (results : gmap string string) (r : TaskResult) : gmap string string :=
  let '(url, success, file_path, _) := r in
  if success then <[url := file_path]> results else results.

(** The tasks, run to completion one after the other in creation order (the
    order in which a semaphore of 1 admits them), each followed by the
    aggregation of its result.  With more workers the tasks interleave; what
    is proved of the returned map does not depend on the order. *)
Fixpoint run_tasks (jobs : list (string * option string))
    (completed_tasks total_tasks : Z) (results : gmap string string)
    : M (gmap string string) :=
  match jobs with
  | [] => ret results
  | (url, file_name) :: jobs =>
      r <- limited_download url file_name ;;
      let completed_tasks := completed_tasks + 1 in
      let results := collect results r in
      (if (completed_tasks mod 10 =? 0) || (completed_tasks =? total_tasks)
       then _save_state else ret tt) ;;;
      run_tasks jobs completed_tasks total_tasks results
  end.

(** Lines 805-817: the invalid URLs are dropped, together with the file
    names at their positions. *)
Definition filter_valid (urls : list string) (filenames : option (list string))
    : list string * option (list string) :=
  let '(valid_urls, valid_filenames) := select _validate_url urls filenames in
  if (length valid_urls <? length urls)%nat
  then (valid_urls, if truthy_list filenames then Some valid_filenames else None)
  else (urls, filenames).

(** Lines 829-844: when continuing from a saved state, the URLs already
    completed are dropped. *)
Definition filter_remaining (completed : gset string) (urls : list string)
    (filenames : option (list string)) : list string * option (list string) :=
  if continue_from_state cfg then
    let '(remaining_urls, remaining_filenames) :=
      select (fun url => negb (bool_decide (url ∈ completed))) urls filenames in
    if (length remaining_urls <? length urls)%nat
    then (remaining_urls,
          if truthy_list filenames then Some remaining_filenames else None)
    else (urls, filenames)
  else (urls, filenames).

(** Lines 896-897: each URL with the file name at its position, if any. *)
Definition make_jobs (urls : list string) (filenames : option (list string))
    : list (string * option string) :=
  imap (fun i url =>
          (url, if truthy_list filenames then default [] filenames !! i else None))
       urls.

(** How a call of [download_batch] ends: it returns its map; or
    [asyncio.Semaphore(self.max_workers)] raises [ValueError] because the
    value is negative (line 865, outside every [try]); or, the value being 0,
    every task waits for the semaphore and the call never returns. *)
Inductive BatchOutcome :=
| BatchReturned (results : gmap string string)
| BatchRaised
| BatchBlocked.

Definition download_batch (urls : list string) (filenames : option (list string))
    : M BatchOutcome :=
  match urls with
  | [] => ret (BatchReturned ∅)
  | _ :: _ =>
      let '(urls, filenames) := filter_valid urls filenames in
      match urls with
      | [] => ret (BatchReturned ∅)
      | _ :: _ =>
          let filenames :=
            if truthy_list filenames
               && negb (length urls =? length (default [] filenames))%nat
            then None else filenames in
          st <- gets stats ;;
          let '(urls, filenames) :=
            filter_remaining (completed_urls st) urls filenames in
          (if negb (continue_from_state cfg)
           then modify (set_stats reset_stats) else ret tt) ;;;
          now <- time_time ;;
          modify (set_stats (set_start_time now)) ;;;
          if max_workers cfg <? 0 then ret BatchRaised
          else
            let jobs := make_jobs urls filenames in
            if (max_workers cfg =? 0) && negb (length jobs =? 0)%nat
            then ret BatchBlocked
            else
              results <- run_tasks jobs 0 (Z.of_nat (length jobs)) ∅ ;;
              _cleanup_progress_bars ;;;
              now <- time_time ;;
              modify (set_stats (set_end_time now)) ;;;
              _save_state ;;;
              ret (BatchReturned results)
      end
  end.

End Downloader.

(** ** The entry point *)

(** The command line after [parse_arguments], with the URL file, the name
    map and the headers already read. *)
Record Args := {
  a_urls : list string;
  a_file_urls : list string;
  a_output_dir : string;
  a_workers : Z;
  a_chunk_size : Z;
  a_retries : Z;
  a_no_resume : bool;
  a_overwrite : bool;
  a_default_suffix : option string;
  a_force_suffix : bool;
  a_filename_map : gmap string string;
  a_headers : Headers;
  a_no_progress : bool;
  a_random_delay : bool;
  a_min_delay : Q;
  a_max_delay : Q;
  a_continue_download : bool;
  a_tqdm_available : bool
}.

Definition default_user_agent : string :=
  "Mozilla/5.0 (Windows NT 10.0; Win64; x64) AppleWebKit/537.36 (KHTML, like Gecko) Chrome/120.0.0.0 Safari/537.36".

Definition config_of (args : Args) : Config :=
  {| output_dir := a_output_dir args;
     max_workers := a_workers args;
     chunk_size := a_chunk_size args;
     max_retries := a_retries args;
     headers := set_default "User-Agent" default_user_agent (a_headers args);
     resume := negb (a_no_resume args);
     overwrite := a_overwrite args;
     default_suffix := a_default_suffix args;
     force_suffix := a_force_suffix args && truthy (a_default_suffix args);
     filename_map := a_filename_map args;
     random_delay := a_random_delay args;
     min_delay := a_min_delay args;
     max_delay := a_max_delay args;
     continue_from_state := a_continue_download args;
     use_tqdm := a_tqdm_available args && negb (a_no_progress args) |}.

(** [BatchDownloader.__init__]: fresh attributes; the completed URLs are
    read back from the state file when [continue_from_state] is set.  The
    field [state_file] stands for the file at the path this downloader is
    configured with. *)
Definition init_downloader (cfg : Config) : M unit :=
  saved <- gets state_file ;;
  let completed :=
    match saved with
    | Some sv => if continue_from_state cfg then sv_completed_urls sv else ∅
    | None => ∅
    end in
  modify (set_stats (fun _ =>
    {| successful := 0; failed := 0; skipped := 0; total_bytes := 0;
       start_time := 0; end_time := 0; completed_urls := completed |})) ;;;
  modify (set_domain_cooldown (fun _ => ∅)) ;;;
  modify (set_progress_bars (fun _ => ∅)).

(** How [main] ends: it returns an exit code ([None] for a bare [return]),
    or it waits for ever on a batch that is blocked. *)
Inductive MainOutcome :=
| MainReturned (exit_code : option Z)
| MainBlocked.

(** [main]: the bare [return] is taken when there is nothing to download;
    an exception raised by the constructor or by [download_batch] is caught
    on lines 1228-1231 and gives 1. *)
Definition main (lib : PyLib) (w : World) (args : Args) : M MainOutcome :=
  let urls := a_urls args ++ a_file_urls args in
  match urls with
  | [] => ret (MainReturned None)
  | _ :: _ =>
      let cfg := config_of args in
      if w_init_ok w then
        init_downloader cfg ;;;
        outcome <- download_batch lib w cfg urls None ;;
        match outcome with
        | BatchReturned result =>
            _cleanup_progress_bars cfg ;;;
            ret (MainReturned (Some 0))
        | BatchRaised =>
            _cleanup_progress_bars cfg ;;;
            ret (MainReturned (Some 1))
        | BatchBlocked => ret MainBlocked
        end
      else ret (MainReturned (Some 1))
  end.

(** How a run of [asyncio.run(main())] ends. *)
Inductive Run :=
| Finished (exit_code : option Z)
| KeyboardInterrupt
| StartupException.

(** The [__main__] block: [sys.exit(None)] is exit status 0. *)
Definition exit_status (r : Run) : Z :=
  match r with
  | Finished exit_code => default 0 exit_code
  | KeyboardInterrupt => 130
  | StartupException => 1
  end.

(** The exit status of a run that nobody interrupts; [None] when the run
    never ends by itself. *)
Definition run_script (lib : PyLib) (w : World) (args : Args) (s : State)
    : option Z * State :=
  let (outcome, s) := main lib w args s in
  (match outcome with
   | MainReturned exit_code => Some (exit_status (Finished exit_code))
   | MainBlocked => None
   end, s).

(** ** Vocabulary of the statements *)

(** The cooldown currently stored for an origin. *)
Definition current_cooldown (domain : string) (s : State) : option Q :=
  snd <$> domain_cooldown s !! domain.

(** The cooldown [_check_domain_cooldown] stores for an origin whose
    previous cooldown is [prev]. *)
Definition next_cooldown (prev : Q) : Q := Qmin (prev * growth_factor) cooldown_cap.

(** [n] successive values of [next_cooldown] after [c]. *)
Fixpoint cooldown_seq (n : nat) (c : Q) : list Q :=
  match n with
  | O => []
  | S n => next_cooldown c :: cooldown_seq n (next_cooldown c)
  end.

(** Consecutive throttle passes for the origin of [url]; [gaps] gives the
    time that goes by before each of them.  The result lists the cooldown
    stored after each pass. *)
Fixpoint await_turns (lib : PyLib) (w : World) (cfg : Config) (url : string)
    (gaps : list Q) (s : State) : list Q :=
  match gaps with
  | [] => []
  | gap :: gaps =>
      let s := set_clock (fun c => c + Qmax gap 0)%Q s in
      let s := snd (_check_domain_cooldown lib w cfg url s) in
      default 0%Q (current_cooldown (netloc (parsed lib url)) s)
        :: await_turns lib w cfg url gaps s
  end.

(** The bar of [url] is kept and its total has not decreased. *)
Definition bar_grows (url : string) (bars bars' : gmap string PBar) : Prop :=
  forall b, bars !! url = Some b ->
    exists b', bars' !! url = Some b' /\ pb_total b <= pb_total b'.

(** Kinds of events. *)
Definition is_sleep (e : Event) : bool :=
  match e with EvSleep _ => true | _ => false end.
Definition is_head (e : Event) : bool :=
  match e with EvHead _ => true | _ => false end.
Definition is_probe_get (e : Event) : bool :=
  match e with EvProbeGet _ => true | _ => false end.
Definition is_stream_get (e : Event) : bool :=
  match e with EvStreamGet _ _ => true | _ => false end.

Definition sleep_or_head (e : Event) : bool := is_sleep e || is_head e.
Definition no_stream (e : Event) : bool := negb (is_stream_get e).

(** Number of download requests, and of waits, in a trace. *)
Definition stream_requests (t : list Event) : nat := length (List.filter is_stream_get t).
Definition sleeps (t : list Event) : nat := length (List.filter is_sleep t).

(** From [s] to [s'] the counters, the files and the state file are
    untouched, and only events allowed by [P] happened. *)
Definition calm (P : Event -> bool) (s s' : State) : Prop :=
  stats s' = stats s /\ files s' = files s /\ state_file s' = state_file s /\
  progress_bars s' = progress_bars s /\
  exists t, trace s' = trace s ++ t /\ Forall (fun e => P e = true) t.

(** The path [download_file] saves [url] under when called in state [s]. *)
Definition final_path (lib : PyLib) (w : World) (cfg : Config) (url : string)
    (filename : option string) (s : State) : string :=
  path_join (output_dir cfg) (fst (locate_file lib w cfg url filename s)).

(** The path of the last successful task for [url] in a list of task
    results. *)
Definition last_success (url : string) (outs : list TaskResult) : option string :=
  foldl (fun acc '(u, success, file_path, _) =>
           if success && String.eqb u url then Some file_path else acc)
        None outs.

(** Every answer to a download request of [url] is an exception, raised
    when the stream is opened or while it is read. *)
Definition always_fails (w : World) (url : string) : Prop :=
  forall n h, is_Some (r_error (w_stream w n url h)) \/ is_Some (r_abort (w_stream w n url h)).

(** The bytes of a list of chunks, in the order received. *)
Definition payload (chunks : list (Q * bytes)) : bytes := concat (snd <$> chunks).


(** Jobs counted in [self.stats]. *)
Definition jobs_counted (s : State) : Z :=
  successful (stats s) + failed (stats s) + skipped (stats s).

(** The URLs a batch runs a job for: the valid ones and, when continuing
    from a saved state, those not yet completed, in the order given. *)
Definition batch_urls (lib : PyLib) (cfg : Config) (completed : gset string)
    (urls : list string) : list string :=
  List.filter (fun url => negb (continue_from_state cfg)
                          || negb (bool_decide (url ∈ completed)))
    (List.filter (_validate_url lib) urls).

(** The jobs of a batch: lines 805-847 and 896-897 of [download_batch]
    applied to its arguments and to the completed URLs at its start. *)
Definition batch_jobs (lib : PyLib) (cfg : Config) (completed : gset string)
    (urls : list string) (filenames : option (list string))
    : list (string * option string) :=
  let '(urls, filenames) := filter_valid lib urls filenames in
  let filenames :=
    if truthy_list filenames
       && negb (length urls =? length (default [] filenames))%nat
    then None else filenames in
  let '(urls, filenames) := filter_remaining cfg completed urls filenames in
  make_jobs urls filenames.

(** The state in which the first task of a batch starts (lines 850-858):
    counters reset unless continuing, start time set. *)
Definition batch_start (cfg : Config) (s : State) : State :=
  set_stats (set_start_time (clock s))
    (if continue_from_state cfg then s else set_stats reset_stats s).

(** The results of the tasks of a batch, in order, each task starting in
    the state the previous one (and the aggregation of its result) left. *)
Fixpoint task_outcomes (lib : PyLib) (w : World) (cfg : Config)
    (jobs : list (string * option string)) (completed_tasks total_tasks : Z)
    (s : State) : list TaskResult :=
  match jobs with
  | [] => []
  | (url, file_name) :: jobs =>
      let (out, s) := limited_download lib w cfg url file_name s in
      let completed_tasks := completed_tasks + 1 in
      let s :=
        if (completed_tasks mod 10 =? 0) || (completed_tasks =? total_tasks)
        then snd (_save_state w s) else s in
      out :: task_outcomes lib w cfg jobs completed_tasks total_tasks s
  end.

(** The URL a task result is about. *)
Definition result_url (out : TaskResult) : string := fst (fst (fst out)).

(** The completed URLs a new downloader starts with. *)
Definition loaded_completed (cfg : Config) (s : State) : gset string :=
  match state_file s with
  | Some sv => if continue_from_state cfg then sv_completed_urls sv else ∅
  | None => ∅
  end.


(** What [_save_state] writes at time [now] for the counters [st]. *)
Definition snapshot (now : Q) (st : Stats) : SavedState :=
  {| sv_timestamp := now;
     sv_completed_urls := completed_urls st;
     sv_successful := successful st;
     sv_failed := failed st;
     sv_skipped := skipped st;
     sv_total_bytes := total_bytes st |}.

(** The rename consulted at [n] failed, and so did the copy or the removal
    of its fallback. *)
Definition fallback_failed (w : World) (n : nat) : Prop :=
  w_rename_ok w n = false ∧
  (w_copy_ok w (S n) = false ∨ w_remove_ok w (S (S n)) = false).

(** How a job that returned was counted. *)
Definition counted_as (success : bool) (s s' : State) : Prop :=
  skipped (stats s') = skipped (stats s) ∧
  if success
  then successful (stats s') = successful (stats s) + 1 ∧
       failed (stats s') = failed (stats s)
  else successful (stats s') = successful (stats s) ∧
       failed (stats s') = failed (stats s) + 1.

Definition not_counted (s s' : State) : Prop :=
  skipped (stats s') = skipped (stats s) ∧
  successful (stats s') = successful (stats s) ∧
  failed (stats s') = failed (stats s).

(** ** A concrete library and concrete worlds for the examples *)

Module Examples.

(** Index of the last occurrence of character [c] in [s]. *)
Fixpoint last_index (c : Ascii.ascii) (s : string) (i : nat) (acc : option nat)
    : option nat :=
  match s with
  | EmptyString => acc
  | String a s =>
      last_index c s (S i) (if Ascii.eqb a c then Some i else acc)
  end.

Definition drop_str (n : nat) (s : string) : string :=
  String.substring n (String.length s - n) s.
Definition take_str (n : nat) (s : string) : string := String.substring 0 n s.

(** [urlparse] on URLs of the form [scheme://host/path], without query,
    fragment, parameters or user information. *)
Definition simple_urlparse (url : string) : option ParsedUrl :=
  match String.index 0 "://" url with
  | Some i =>
      let rest := drop_str (i + 3) url in
      let j := default (String.length rest) (String.index 0 "/" rest) in
      Some {| scheme := take_str i url; netloc := take_str j rest;
              path := drop_str j rest |}
  | None => Some {| scheme := ""; netloc := ""; path := url |}
  end.

Definition simple_basename (p : string) : string :=
  match last_index (Ascii.ascii_of_nat 47) p 0 None with
  | Some i => drop_str (S i) p
  | None => p
  end.

(** [os.path.splitext] on a name without directory part. *)
Definition simple_splitext (p : string) : string * string :=
  match last_index (Ascii.ascii_of_nat 46) p 0 None with
  | Some (S i) => (take_str (S i) p, drop_str (S i) p)
  | _ => (p, "")
  end.

(** Agrees with Python on lower-case ASCII strings without escapes. *)
Definition py_lib : PyLib :=
  {| urlparse := simple_urlparse;
     unquote := fun s => s;
     basename := simple_basename;
     splitext := simple_splitext;
     lower := fun s => s |}.

Definition ok_meta (content_length : option Z) : MetaResponse :=
  {| m_error := None; m_content_length := content_length; m_content_type := None |}.

Definition failing_response (e : NetError) : Response :=
  {| r_error := Some e; r_content_length := None; r_chunks := []; r_abort := None |}.

Definition base_config : Config :=
  {| output_dir := "downloads"; max_workers := 5; chunk_size := MiB;
     max_retries := 3;
     headers := {[ "User-Agent" := default_user_agent ]};
     resume := true; overwrite := false; default_suffix := None;
     force_suffix := false; filename_map := ∅; random_delay := false;
     min_delay := 1; max_delay := 5; continue_from_state := false;
     use_tqdm := true |}.

Definition empty_stats : Stats :=
  {| successful := 0; failed := 0; skipped := 0; total_bytes := 0;
     start_time := 0; end_time := 0; completed_urls := ∅ |}.

Definition initial_state (fs : gmap string bytes) : State :=
  {| stats := empty_stats; domain_cooldown := ∅; progress_bars := ∅;
     files := fs; state_file := None; clock := 1000; tick := 0; trace := [] |}.

(** A server holding one resource [body] that honours [Range: bytes=M-]
    headers for the offsets listed in [offsets]. *)
Definition serve_range (body : bytes) (offsets : list Z) (hdrs : Headers) : bytes :=
  match hdrs !! "Range" with
  | Some range =>
      match List.find (fun m => String.eqb range ("bytes=" +:+ pretty m +:+ "-")) offsets with
      | Some m => drop (Z.to_nat m) body
      | None => body
      end
  | None => body
  end.

Definition range_server (body : bytes) (offsets : list Z) : World :=
  {| w_head := fun _ _ => ok_meta (Some (Z.of_nat (length body)));
     w_probe := fun _ _ => ok_meta (Some (Z.of_nat (length body)));
     w_stream := fun _ _ hdrs =>
       let sent := serve_range body offsets hdrs in
       {| r_error := None; r_content_length := Some (Z.of_nat (length sent));
          r_chunks := [(0%Q, sent)]; r_abort := None |};
     w_random := fun _ => 0%Q;
     w_choice := fun _ => 0%nat;
     w_rename_ok := fun _ => true;
     w_copy_ok := fun _ => true;
     w_remove_ok := fun _ => true;
     w_save_ok := fun _ => true;
     w_init_ok := true |}.

Definition url1 : string := "http://a.example/f.bin".

Definition resource_1500 : bytes := repeat Byte.x01 500 ++ repeat Byte.x02 1000.

(** A world whose requests all fail and whose random draws are 0.9. *)
Definition failing_world (e : NetError) : World :=
  {| w_head := fun _ _ => ok_meta None;
     w_probe := fun _ _ => ok_meta None;
     w_stream := fun _ _ _ => failing_response e;
     w_random := fun _ => (9 # 10)%Q;
     w_choice := fun _ => 0%nat;
     w_rename_ok := fun _ => true;
     w_copy_ok := fun _ => true;
     w_remove_ok := fun _ => true;
     w_save_ok := fun _ => true;
     w_init_ok := true |}.

(** The origin of [url1] was last accessed at time 1000, which is now, with
    a cooldown of 0.1 s. *)
Definition throttled_state : State :=
  set_domain_cooldown (fun _ => {[ "a.example" := (1000%Q, (1 # 10)%Q) ]})
                      (initial_state ∅).

(** A server that sends [body] in one chunk, on a machine where a rename
    succeeds only if [rename_ok] and a copy only if [copy_ok]. *)
Definition disk_world (body : bytes) (rename_ok copy_ok : bool) : World :=
  {| w_head := fun _ _ => ok_meta (Some (Z.of_nat (length body)));
     w_probe := fun _ _ => ok_meta (Some (Z.of_nat (length body)));
     w_stream := fun _ _ _ =>
       {| r_error := None; r_content_length := Some (Z.of_nat (length body));
          r_chunks := [(0%Q, body)]; r_abort := None |};
     w_random := fun _ => 0%Q;
     w_choice := fun _ => 0%nat;
     w_rename_ok := fun _ => rename_ok;
     w_copy_ok := fun _ => copy_ok;
     w_remove_ok := fun _ => true;
     w_save_ok := fun _ => true;
     w_init_ok := true |}.

(** A server that answers metadata requests without [Content-Length], and
    whose download stream announces 2000 bytes, sends 100 and breaks. *)
Definition breaking_world : World :=
  {| w_head := fun _ _ => ok_meta None;
     w_probe := fun _ _ => ok_meta None;
     w_stream := fun _ _ _ =>
       {| r_error := None; r_content_length := Some 2000;
          r_chunks := [(0%Q, repeat Byte.x01 100)]; r_abort := Some RequestError |};
     w_random := fun _ => (1 # 2)%Q;
     w_choice := fun _ => 0%nat;
     w_rename_ok := fun _ => true;
     w_copy_ok := fun _ => true;
     w_remove_ok := fun _ => true;
     w_save_ok := fun _ => true;
     w_init_ok := true |}.

Definition locals1 : Locals :=
  {| file_path := "downloads/f.bin"; temp_path := "downloads/f.bin.part";
     downloaded_bytes := 0; retry_count := 0; mode := WB; file_size := 1500 |}.

(** [python batch_downloader.py http://a.example/f.bin --no-progress]. *)
Definition base_args : Args :=
  {| a_urls := [url1]; a_file_urls := []; a_output_dir := "downloads";
     a_workers := 5; a_chunk_size := MiB; a_retries := 3;
     a_no_resume := false; a_overwrite := false; a_default_suffix := None;
     a_force_suffix := false; a_filename_map := ∅; a_headers := ∅;
     a_no_progress := true; a_random_delay := false;
     a_min_delay := 1; a_max_delay := 5; a_continue_download := false;
     a_tqdm_available := true |}.

(** The partial file of scenario C: the first 500 bytes of the resource. *)
Definition partial_500 : gmap string bytes :=
  {[ "downloads/f.bin.part" := take 500 resource_1500 ]}.

(** A configuration with chunks of 100 bytes. *)
Definition small_chunk_config : Config :=
  {| output_dir := "downloads"; max_workers := 5; chunk_size := 100;
     max_retries := 3;
     headers := {[ "User-Agent" := default_user_agent ]};
     resume := true; overwrite := false; default_suffix := None;
     force_suffix := false; filename_map := ∅; random_delay := false;
     min_delay := 1; max_delay := 5; continue_from_state := false;
     use_tqdm := true |}.

(** [body] cut into chunks of [n] bytes ([fuel] bounds their number). *)
Fixpoint chunks_of (fuel n : nat) (body : bytes) : list (Q * bytes) :=
  match fuel with
  | O => []
  | S fuel =>
      match body with
      | [] => []
      | _ :: _ => (0%Q, take n body) :: chunks_of fuel n (drop n body)
      end
  end.

(** A server that honours [Range: bytes=100-] and sends chunks of 100
    bytes.  The first download request (the oracle has been consulted fewer
    than 3 times) breaks after the first chunk; later ones go well. *)
Definition flaky_world : World :=
  {| w_head := fun _ _ => ok_meta (Some 1500);
     w_probe := fun _ _ => ok_meta (Some 1500);
     w_stream := fun n _ hdrs =>
       let sent := serve_range resource_1500 [100] hdrs in
       if (n <? 3)%nat then
         {| r_error := None; r_content_length := Some (Z.of_nat (length sent));
            r_chunks := [(0%Q, take 100 sent)]; r_abort := Some RequestError |}
       else
         {| r_error := None; r_content_length := Some (Z.of_nat (length sent));
            r_chunks := chunks_of 15 100 sent; r_abort := None |};
     w_random := fun _ => (1 # 2)%Q;
     w_choice := fun _ => 0%nat;
     w_rename_ok := fun _ => true;
     w_copy_ok := fun _ => true;
     w_remove_ok := fun _ => true;
     w_save_ok := fun _ => true;
     w_init_ok := true |}.

(** A server whose download stream announces 1500 bytes, sends one chunk of
    100 bytes and breaks, every time. *)
Definition breaking_world_100 : World :=
  {| w_head := fun _ _ => ok_meta (Some 1500);
     w_probe := fun _ _ => ok_meta (Some 1500);
     w_stream := fun _ _ _ =>
       {| r_error := None; r_content_length := Some 1500;
          r_chunks := [(0%Q, take 100 resource_1500)];
          r_abort := Some RequestError |};
     w_random := fun _ => (1 # 2)%Q;
     w_choice := fun _ => 0%nat;
     w_rename_ok := fun _ => true;
     w_copy_ok := fun _ => true;
     w_remove_ok := fun _ => true;
     w_save_ok := fun _ => true;
     w_init_ok := true |}.

(** The download of [url1] is complete in the partial file. *)
Definition complete_partial : gmap string bytes :=
  {[ "downloads/f.bin.part" := resource_1500 ]}.



End Examples.

(** * Properties *)

Import Examples.

(** ** Reasoning about monadic code *)

Ltac munfold :=
  unfold bind, gets, ret, sleep, modify, time_time, random_uniform,
    random_choice, consult, get in *.

(** Symbolic execution: unfold the monad, then split on every test. *)
Ltac mexec := munfold; repeat (case_match; cbn in *; simplify_eq).

(** ** URL validation (INIT) *)

Lemma validate_url_false lib url :
  _validate_url lib url = false ↔
  urlparse lib url = None ∨
  ∃ r, urlparse lib url = Some r ∧
       ((scheme r ≠ "http" ∧ scheme r ≠ "https") ∨ netloc r = "").
Proof.
  unfold _validate_url. destruct (urlparse lib url) as [r|].
  - rewrite andb_false_iff, orb_false_iff, negb_false_iff, !String.eqb_neq, String.eqb_eq.
    split.
    + intros H. right. exists r. done.
    + intros [H|(r' & [= <-] & H)]; done.
  - split; [by left|done].
Qed.

(** C6. A URL that [urlparse] rejects, or whose scheme is neither http nor
    https, or whose host is empty, makes [download_file] return
    [(False, "", 0)] at once: the only effect is [failed += 1]; no request is
    sent, nothing is drawn or slept, and the retry loop is not entered. *)
Theorem C6_invalid_url_fails_at_once lib w cfg url filename update_progress s :
  (urlparse lib url = None ∨
   ∃ r, urlparse lib url = Some r ∧
        ((scheme r ≠ "http" ∧ scheme r ≠ "https") ∨ netloc r = "")) →
  download_file lib w cfg url filename update_progress s
    = (Some (false, "", 0), set_stats add_failed s)
  ∧ trace (set_stats add_failed s) = trace s
  ∧ tick (set_stats add_failed s) = tick s
  ∧ failed (stats (set_stats add_failed s)) = failed (stats s) + 1.
Proof.
  intros Hbad%validate_url_false.
  unfold download_file. rewrite Hbad. done.
Qed.

Lemma C6_witness :
  download_file py_lib (range_server [] []) base_config "ftp://a.example/f.bin" None true
      (initial_state ∅)
    = (Some (false, "", 0), set_stats add_failed (initial_state ∅))
  ∧ trace (set_stats add_failed (initial_state ∅)) = trace (initial_state ∅)
  ∧ tick (set_stats add_failed (initial_state ∅)) = tick (initial_state ∅)
  ∧ failed (stats (set_stats add_failed (initial_state ∅)))
    = failed (stats (initial_state ∅)) + 1.
Proof.
  apply C6_invalid_url_fails_at_once.
  right. eexists. split; [vm_compute; reflexivity|].
  left. split; discriminate.
Defined.

(** ** Origin throttle *)

Lemma next_cooldown_bounds prev :
  (0 <= prev)%Q → (prev <= cooldown_cap)%Q →
  (prev <= next_cooldown prev)%Q ∧ (next_cooldown prev <= cooldown_cap)%Q.
Proof.
  intros H0 H30. unfold next_cooldown. split; [|apply Q.le_min_r].
  apply Q.min_glb; [|done]. unfold growth_factor. lra.
Qed.

Lemma check_cooldown_known lib w cfg url r s c :
  urlparse lib url = Some r →
  current_cooldown (netloc r) s = Some c →
  current_cooldown (netloc r) (snd (_check_domain_cooldown lib w cfg url s))
    = Some (next_cooldown c).
Proof.
  intros Hr Hc. unfold _check_domain_cooldown, current_cooldown in *. rewrite Hr.
  destruct (domain_cooldown s !! netloc r) as [[last prev]|] eqn:Hdc; simplify_eq/=.
  mexec; by rewrite lookup_insert_eq.
Qed.

Lemma check_cooldown_first lib w cfg url r s :
  urlparse lib url = Some r →
  current_cooldown (netloc r) s = None →
  current_cooldown (netloc r) (snd (_check_domain_cooldown lib w cfg url s))
    = Some (if random_delay cfg
            then min_delay cfg + (max_delay cfg - min_delay cfg) * w_random w (tick s)
            else 0 + ((1 # 2) - 0) * w_random w (tick s))%Q.
Proof.
  intros Hr Hc. unfold _check_domain_cooldown, current_cooldown in *. rewrite Hr.
  destruct (domain_cooldown s !! netloc r) as [[last prev]|] eqn:Hdc; simplify_eq/=.
  mexec; by rewrite lookup_insert_eq.
Qed.

Lemma await_turns_seq lib w cfg url r gaps s c :
  urlparse lib url = Some r →
  current_cooldown (netloc r) s = Some c →
  await_turns lib w cfg url gaps s = cooldown_seq (length gaps) c.
Proof.
  intros Hr. revert s c. induction gaps as [|gap gaps IH]; intros s c Hc; [done|].
  assert (parsed lib url = r) as Hp by (unfold parsed; by rewrite Hr).
  cbn [await_turns length cooldown_seq]. rewrite Hp.
  erewrite check_cooldown_known by eauto. cbn [default].
  f_equal. apply IH. eapply check_cooldown_known; eauto.
Qed.

Lemma cooldown_seq_sorted n c :
  (0 <= c)%Q → (c <= cooldown_cap)%Q →
  Sorted Qle (c :: cooldown_seq n c) ∧
  Forall (λ c', (c' <= cooldown_cap)%Q) (cooldown_seq n c).
Proof.
  revert c. induction n as [|n IH]; intros c H0 Hcap; cbn.
  - split; repeat constructor.
  - destruct (next_cooldown_bounds c H0 Hcap) as [Hle Hcap'].
    destruct (IH (next_cooldown c)) as [Hs Hf]; [lra|done|].
    split.
    + apply Sorted_cons; [done|]. by apply HdRel_cons.
    + by apply Forall_cons.
Qed.

(** C8 (as amended).  For an origin whose stored cooldown [c0] lies between
    0 and the cap of 30 s, consecutive passes through the throttle gate,
    whenever they arrive, store the cooldowns [min(c * 1.2, 30)] one after the
    other: the freshly drawn base is not used once the origin is known.  The
    sequence is non-decreasing and never exceeds the cap. *)
Theorem C8_cooldown_growth lib w cfg url r gaps s c0 :
  urlparse lib url = Some r →
  current_cooldown (netloc r) s = Some c0 →
  (0 <= c0)%Q → (c0 <= cooldown_cap)%Q →
  let cs := await_turns lib w cfg url gaps s in
  cs = cooldown_seq (length gaps) c0 ∧
  Sorted Qle (c0 :: cs) ∧
  Forall (λ c, (c <= cooldown_cap)%Q) cs.
Proof.
  intros Hr Hc H0 Hcap cs. subst cs.
  erewrite await_turns_seq by eauto.
  split; [done|]. by apply cooldown_seq_sorted.
Qed.

Lemma C8_witness :
  let cs := await_turns py_lib (failing_world RequestError) base_config url1 [0%Q; 0%Q; 0%Q] throttled_state in
  cs = cooldown_seq 3 (1 # 10) ∧
  Sorted Qle ((1 # 10)%Q :: cs) ∧
  Forall (λ c, (c <= cooldown_cap)%Q) cs.
Proof.
  apply (C8_cooldown_growth py_lib (failing_world RequestError) base_config url1
           {| scheme := "http"; netloc := "a.example"; path := "/f.bin" |}
           [0%Q; 0%Q; 0%Q] throttled_state (1 # 10)).
  - reflexivity.
  - reflexivity.
  - vm_compute. discriminate.
  - vm_compute. discriminate.
Defined.

(** The claim as stated fails: the origin has cooldown 0.1 s and is accessed
    again within it; the base drawn is 0.45 s; the new cooldown is 0.12 s, not
    [max(0.45, 0.12)]. *)
Lemma C8_counterexample :
  let s := throttled_state in
  let s' := snd (_check_domain_cooldown py_lib (failing_world RequestError) base_config url1 s) in
  let base := (0 + ((1 # 2) - 0) * w_random (failing_world RequestError) (tick s))%Q in
  ∃ last prev new,
    domain_cooldown s !! "a.example" = Some (last, prev) ∧
    (clock s - last < prev)%Q ∧
    current_cooldown "a.example" s' = Some new ∧
    ¬ (new == Qmin (Qmax base (prev * growth_factor)) cooldown_cap)%Q.
Proof.
  exists 1000%Q, (1 # 10)%Q, (next_cooldown (1 # 10)).
  split; [reflexivity|]. split; [reflexivity|]. split; [reflexivity|].
  vm_compute. discriminate.
Qed.

(** ** Progress bars *)

Lemma bar_grows_refl url bars : bar_grows url bars bars.
Proof. intros b Hb. exists b. split; [done|lia]. Qed.

Lemma bar_grows_trans url b1 b2 b3 :
  bar_grows url b1 b2 → bar_grows url b2 b3 → bar_grows url b1 b3.
Proof.
  intros H12 H23 b Hb. destruct (H12 b Hb) as (b' & Hb' & Hle).
  destruct (H23 b' Hb') as (b'' & Hb'' & Hle'). exists b''. split; [done|lia].
Qed.

Lemma update_bar_grows use url url' n total bars :
  bar_grows url bars (update_bar use url' n total bars).
Proof.
  intros b Hb. unfold update_bar.
  destruct use; cbn; [|exists b; split; [done|lia]].
  destruct (bars !! url') as [pbar|] eqn:Hurl'; [|exists b; split; [done|lia]].
  destruct (decide (url' = url)) as [->|Hne].
  - rewrite lookup_insert_eq. eexists. split; [done|]. simplify_eq.
    destruct total as [t|]; [destruct (0 <? t)|]; cbn; lia.
  - rewrite lookup_insert_ne by done. exists b. split; [done|lia].
Qed.

Lemma close_bar_lookup use url url' success bars b' :
  close_bar use url' success bars !! url = Some b' → bars !! url = Some b'.
Proof.
  unfold close_bar. destruct use; cbn; [|done].
  destruct (bars !! url') eqn:Hurl'; [|done].
  destruct (decide (url' = url)) as [->|Hne].
  - by rewrite lookup_delete_eq.
  - by rewrite lookup_delete_ne.
Qed.

(** ** The chunk loop *)

Lemma write_chunks_frame lib_cfg url update_progress tmp chunks d last s :
  let '(d', s') := write_chunks lib_cfg url update_progress tmp chunks d last s in
  trace s' = trace s ∧ tick s' = tick s ∧
  domain_cooldown s' = domain_cooldown s ∧ state_file s' = state_file s ∧
  successful (stats s') = successful (stats s) ∧
  failed (stats s') = failed (stats s) ∧
  skipped (stats s') = skipped (stats s) ∧
  completed_urls (stats s') = completed_urls (stats s) ∧
  total_bytes (stats s') = total_bytes (stats s) + (d' - d) ∧
  d <= d' ∧
  (∀ u, bar_grows u (progress_bars s) (progress_bars s')).
Proof.
  revert d last s. induction chunks as [|[dt chunk] chunks IH]; intros d last s.
  - cbn. repeat split; try lia. intros u. apply bar_grows_refl.
  - cbn [write_chunks]. munfold. destruct chunk as [|c chunk].
    + specialize (IH d last (set_clock (λ c, (c + Qmax dt 0)%Q) s)).
      destruct (write_chunks _ _ _ _ _ _ _ _) as [d' s']. cbn in IH. done.
    + cbn.
      match goal with
      | |- context [if ?b then _ else _] => destruct b
      end.
      * match goal with
        | |- context [write_chunks _ _ _ _ _ ?d1 ?l1 ?s1] =>
            specialize (IH d1 l1 s1); destruct (write_chunks _ _ _ _ _ d1 l1 s1) as [d' s']
        end.
        cbn in IH. destruct IH as (?&?&?&?&?&?&?&?&?&?&Hb).
        repeat split; try congruence; try lia.
        intros u. eapply bar_grows_trans; [|apply Hb]. apply update_bar_grows.
      * match goal with
        | |- context [write_chunks _ _ _ _ _ ?d1 ?l1 ?s1] =>
            specialize (IH d1 l1 s1); destruct (write_chunks _ _ _ _ _ d1 l1 s1) as [d' s']
        end.
        cbn in IH. destruct IH as (?&?&?&?&?&?&?&?&?&?&Hb).
        repeat split; try congruence; try lia. done.
Qed.
(** ** The blocks of one pass of the retry loop *)

Lemma set_default_lookup_ne k v (h : Headers) k' :
  k ≠ k' → set_default k v h !! k' = h !! k'.
Proof.
  intros Hne. unfold set_default. destruct (h !! k); [done|].
  by rewrite lookup_insert_ne.
Qed.

Lemma enhance_headers_spec lib w cfg url s :
  let '(h, s') := _enhance_headers lib w cfg url s in
  stats s' = stats s ∧ domain_cooldown s' = domain_cooldown s ∧
  progress_bars s' = progress_bars s ∧ files s' = files s ∧
  state_file s' = state_file s ∧ clock s' = clock s ∧ trace s' = trace s ∧
  h !! "Range" = headers cfg !! "Range".
Proof.
  unfold _enhance_headers. munfold.
  destruct (headers cfg !! "User-Agent"); cbn [fst snd].
  all: repeat split; try done.
  all: rewrite !set_default_lookup_ne by done; try done.
  by rewrite lookup_insert_ne.
Qed.

Lemma get_resume_header_state cfg url p s :
  snd (_get_resume_header cfg url p s) = s.
Proof. unfold _get_resume_header. mexec; done. Qed.

(** The request that is sent carries a [Range] header only if the user's
    own headers do; the stream it opens is the world's answer to it. *)
Lemma send_request_spec lib w cfg url l s :
  let '(response, s') := send_request lib w cfg url l s in
  ∃ h n,
    response = w_stream w n url h ∧
    h !! "Range" = headers cfg !! "Range" ∧
    trace s' = trace s ++ [EvStreamGet url h] ∧
    stats s' = stats s ∧ domain_cooldown s' = domain_cooldown s ∧
    progress_bars s' = progress_bars s ∧ files s' = files s ∧
    state_file s' = state_file s ∧ clock s' = clock s.
Proof.
  unfold send_request.
  unfold bind at 1.
  rewrite (surjective_pairing (_get_resume_header _ _ _ _)), get_resume_header_state.
  unfold bind at 1.
  pose proof (enhance_headers_spec lib w cfg url s) as He.
  destruct (_enhance_headers lib w cfg url s) as [h s1].
  destruct He as (Hst & Hdc & Hbars & Hfs & Hsf & Hck & Htr & Hrange).
  munfold. cbn. exists h, (tick s1). rewrite <- Htr. done.
Qed.

(** Split on the boolean tests of the goal. *)
Ltac split_tests :=
  repeat match goal with
  | |- context [if ?b then _ else _] =>
      match type of b with bool => destruct b eqn:?; cbn end
  end.

Ltac use_write_chunks :=
  match goal with
  | |- context [write_chunks ?c ?u ?up ?t ?ch ?d ?la ?st] =>
      let H := fresh "Hw" in
      pose proof (write_chunks_frame c u up t ch d la st) as H;
      destruct (write_chunks c u up t ch d la st) as [? ?]; cbn in H
  end.

(** Goals [bar_grows u bars (update_bar ... (update_bar ... bars))]. *)
Ltac solve_bar_grows :=
  repeat first
    [ apply bar_grows_refl
    | eapply bar_grows_trans; [|apply update_bar_grows] ].

Lemma receive_body_spec cfg url update_progress l response s :
  let '((fsz, d'), s') := receive_body cfg url update_progress l response s in
  trace s' = trace s ∧ tick s' = tick s ∧
  domain_cooldown s' = domain_cooldown s ∧ state_file s' = state_file s ∧
  successful (stats s') = successful (stats s) ∧
  failed (stats s') = failed (stats s) ∧
  skipped (stats s') = skipped (stats s) ∧
  completed_urls (stats s') = completed_urls (stats s) ∧
  total_bytes (stats s') = total_bytes (stats s) + (d' - downloaded_bytes l) ∧
  downloaded_bytes l <= d' ∧
  (∀ u, bar_grows u (progress_bars s) (progress_bars s')).
Proof.
  unfold receive_body, _update_progress_bar. munfold.
  destruct (r_content_length response) as [total|]; cbn.
  all: split_tests; use_write_chunks.
  all: destruct Hw as (?&?&?&?&?&?&?&?&?&?&Hb).
  all: repeat split; try congruence; try lia.
  all: intros u; eapply bar_grows_trans; [|apply Hb]; cbn; solve_bar_grows.
Qed.
Lemma handle_error_spec lib w cfg url update_progress e l s :
  let '(step, s') := handle_error lib w cfg url update_progress e l s in
  files s' = files s ∧ state_file s' = state_file s ∧
  if max_retries cfg <? retry_count l + 1 then
    step = Return (false, file_path l, downloaded_bytes l) ∧
    stats s' = add_failed (stats s) ∧ trace s' = trace s ∧
    (∀ u b, progress_bars s' !! u = Some b → progress_bars s !! u = Some b)
  else if float_overflow_exponent <=? retry_count l + 1 then
    step = Return (false, "", 0) ∧
    stats s' = add_failed (stats s) ∧ trace s' = trace s ∧
    (∀ u b, progress_bars s' !! u = Some b → progress_bars s !! u = Some b)
  else
    step = Continue (with_retry l (retry_count l + 1)) ∧
    stats s' = stats s ∧ progress_bars s' = progress_bars s ∧
    ∃ n, trace s' = trace s ++
      [EvSleep (backoff_delay (retry_count l + 1) (0 + (2 - 0) * w_random w n))%Q].
Proof.
  unfold handle_error, _close_progress_bar. munfold.
  destruct (is_policy_rejection e); cbn.
  all: destruct (max_retries cfg <? retry_count l + 1); cbn.
  all: try destruct (float_overflow_exponent <=? retry_count l + 1); cbn.
  all: split_tests; repeat split; eauto using close_bar_lookup.
Qed.

Lemma save_state_spec w s :
  let '(_, s') := _save_state w s in
  stats s' = stats s ∧ files s' = files s ∧ trace s' = trace s ∧
  progress_bars s' = progress_bars s ∧ domain_cooldown s' = domain_cooldown s ∧
  clock s' = clock s ∧ tick s' = S (tick s) ∧
  state_file s' = (if w_save_ok w (tick s)
                   then Some (snapshot (clock s) (stats s)) else state_file s).
Proof. unfold _save_state. munfold. cbn. split_tests; done. Qed.

Ltac use_save_state :=
  match goal with
  | |- context [_save_state ?w ?st] =>
      let H := fresh "Hsave" in
      pose proof (save_state_spec w st) as H;
      destruct (_save_state w st) as [? ?]; cbn in H;
      destruct H as (?&?&?&Hsave_bars&?&?&?&Hsave_file)
  end.

(** What [finish_download] does, by the answers of the file system. *)
Lemma finish_download_spec w cfg url update_progress l d s :
  let '(step, s') := finish_download w cfg url update_progress l d s in
  trace s' = trace s ∧ domain_cooldown s' = domain_cooldown s ∧
  (∀ u b, progress_bars s' !! u = Some b → progress_bars s !! u = Some b) ∧
  if w_rename_ok w (tick s)
     || (w_copy_ok w (S (tick s)) && w_remove_ok w (S (S (tick s))))
  then
    step = Return (true, file_path l, d) ∧
    stats s' = add_completed url (add_successful (stats s)) ∧
    files s' = (if w_rename_ok w (tick s)
                then move_file (temp_path l) (file_path l) (files s)
                else delete (temp_path l)
                       (copy_file (temp_path l) (file_path l) (files s))) ∧
    (state_file s' = state_file s
     ∨ state_file s' = Some (snapshot (clock s) (stats s')))
  else
    step = Return (true, temp_path l, d) ∧
    stats s' = stats s ∧ progress_bars s' = progress_bars s ∧
    files s' = (if w_copy_ok w (S (tick s))
                then copy_file (temp_path l) (file_path l) (files s)
                else files s) ∧
    state_file s' = state_file s.
Proof.
  unfold finish_download, rename, copy_then_remove, _close_progress_bar. munfold. cbn.
  destruct (w_rename_ok w (tick s)); cbn.
  2: destruct (w_copy_ok w (S (tick s))); cbn.
  2: destruct (w_remove_ok w (S (S (tick s)))); cbn.
  all: split_tests; try use_save_state.
  all: repeat split; try congruence; eauto using close_bar_lookup.
  all: try (intros u b; rewrite ?Hsave_bars; eauto using close_bar_lookup).
  all: try (rewrite Hsave_file; case_match; [right|left]; congruence).
Qed.
(** ** Rename failure (C3) *)

(** C3 (as amended).  When the download is complete in the partial file and
    the rename to the final path raises, [shutil.copy2] followed by
    [os.remove] is tried.  If both succeed the job ends as an ordinary
    success: the final file holds the content of the partial file, the
    partial file is gone, the job counts as successful and its URL as
    completed.  If one of them raises, the job is not treated as fatal: it
    is returned as a success whose path is that of the partial file, the
    partial file is kept with its content, and no failure is recorded.  No
    third file changes in either case. *)
Theorem C3_rename_failure_fallback w cfg url update_progress l d content s :
  w_rename_ok w (tick s) = false →
  files s !! temp_path l = Some content →
  file_path l ≠ temp_path l →
  let '(step, s') := finish_download w cfg url update_progress l d s in
  (∀ p, p ≠ file_path l → p ≠ temp_path l → files s' !! p = files s !! p) ∧
  if w_copy_ok w (S (tick s)) && w_remove_ok w (S (S (tick s)))
  then
    step = Return (true, file_path l, d) ∧
    files s' !! file_path l = Some content ∧
    files s' !! temp_path l = None ∧
    successful (stats s') = successful (stats s) + 1 ∧
    failed (stats s') = failed (stats s) ∧
    url ∈ completed_urls (stats s')
  else
    step = Return (true, temp_path l, d) ∧
    files s' !! temp_path l = Some content ∧
    failed (stats s') = failed (stats s).
Proof.
  intros Hren Hpart Hpaths.
  pose proof (finish_download_spec w cfg url update_progress l d s) as H.
  destruct (finish_download w cfg url update_progress l d s) as [step s'].
  rewrite Hren in H. cbn [orb] in H. destruct H as (_ & _ & _ & H).
  unfold copy_file in H. rewrite Hpart in H.
  destruct (w_copy_ok w (S (tick s))); cbn [andb] in *.
  1: destruct (w_remove_ok w (S (S (tick s)))).
  - destruct H as (-> & -> & -> & _). cbn. split.
    { intros p Hp1 Hp2. rewrite lookup_delete_ne by done.
      by rewrite lookup_insert_ne. }
    repeat split; try done.
    + rewrite lookup_delete_ne by done. by rewrite lookup_insert_eq.
    + by rewrite lookup_delete_eq.
    + set_solver.
  - destruct H as (-> & -> & _ & -> & _). split.
    { intros p Hp1 Hp2. by rewrite lookup_insert_ne. }
    repeat split; try done. by rewrite lookup_insert_ne.
  - destruct H as (-> & -> & _ & -> & _). done.
Qed.

Lemma C3_witness :
  let w := disk_world resource_1500 false true in
  let s := initial_state complete_partial in
  w_rename_ok w (tick s) = false ∧
  files s !! temp_path locals1 = Some resource_1500 ∧
  file_path locals1 ≠ temp_path locals1 ∧
  let '(step, s') := finish_download w base_config url1 true locals1 1500 s in
  (∀ p, p ≠ file_path locals1 → p ≠ temp_path locals1 →
        files s' !! p = files s !! p) ∧
  if w_copy_ok w (S (tick s)) && w_remove_ok w (S (S (tick s)))
  then
    step = Return (true, file_path locals1, 1500) ∧
    files s' !! file_path locals1 = Some resource_1500 ∧
    files s' !! temp_path locals1 = None ∧
    successful (stats s') = successful (stats s) + 1 ∧
    failed (stats s') = failed (stats s) ∧
    url1 ∈ completed_urls (stats s')
  else
    step = Return (true, temp_path locals1, 1500) ∧
    files s' !! temp_path locals1 = Some resource_1500 ∧
    failed (stats s') = failed (stats s).
Proof.
  split; [reflexivity|]. split; [reflexivity|]. split; [discriminate|].
  apply (C3_rename_failure_fallback (disk_world resource_1500 false true)
           base_config url1 true locals1 1500 resource_1500
           (initial_state complete_partial)).
  - reflexivity.
  - reflexivity.
  - discriminate.
Defined.

(** The claim as stated fails: with a rename and a copy that both raise,
    the job comes back as a success under the path of the partial file,
    which holds the 1500 bytes received, and [failed] stays 0. *)
Lemma C3_counterexample :
  let '(r, s') :=
    download_file py_lib (disk_world resource_1500 false false) base_config url1 None true
      (initial_state ∅) in
  r = Some (true, "downloads/f.bin.part", 1500) ∧ failed (stats s') = 0 ∧
  files s' !! "downloads/f.bin.part" = Some resource_1500 ∧
  files s' !! "downloads/f.bin" = None.
Proof. vm_compute. done. Qed.
(** ** One pass of the retry loop *)

Ltac use_spec lem f :=
  match goal with
  | |- context [f ?a1 ?a2 ?a3 ?a4 ?a5 ?a6 ?a7 ?a8] =>
      let H := fresh "Hspec" in
      pose proof (lem a1 a2 a3 a4 a5 a6 a7 a8) as H;
      destruct (f a1 a2 a3 a4 a5 a6 a7 a8) as [? ?]
  | |- context [f ?a1 ?a2 ?a3 ?a4 ?a5 ?a6 ?a7] =>
      let H := fresh "Hspec" in
      pose proof (lem a1 a2 a3 a4 a5 a6 a7) as H;
      destruct (f a1 a2 a3 a4 a5 a6 a7) as [? ?]
  | |- context [f ?a1 ?a2 ?a3 ?a4 ?a5 ?a6] =>
      let H := fresh "Hspec" in
      pose proof (lem a1 a2 a3 a4 a5 a6) as H;
      destruct (f a1 a2 a3 a4 a5 a6) as [? ?]
  end.

(** A pass that ends in [Continue]: what it did. *)
Lemma attempt_continue lib w cfg url update_progress l s l' s' :
  attempt lib w cfg url update_progress l s = (Continue l', s') →
  retry_count l' = retry_count l + 1 ∧
  retry_count l + 1 <= max_retries cfg ∧
  retry_count l + 1 < float_overflow_exponent ∧
  file_path l' = file_path l ∧ temp_path l' = temp_path l ∧
  (∃ h n, h !! "Range" = headers cfg !! "Range" ∧
     trace s' = trace s ++
       [EvStreamGet url h;
        EvSleep (backoff_delay (retry_count l + 1) (0 + (2 - 0) * w_random w n))%Q]) ∧
  successful (stats s') = successful (stats s) ∧
  failed (stats s') = failed (stats s) ∧
  skipped (stats s') = skipped (stats s) ∧
  completed_urls (stats s') = completed_urls (stats s) ∧
  downloaded_bytes l' - downloaded_bytes l
    = total_bytes (stats s') - total_bytes (stats s) ∧
  downloaded_bytes l <= downloaded_bytes l' ∧
  (downloaded_bytes l < downloaded_bytes l' → mode l' = AB) ∧
  (∀ u, bar_grows u (progress_bars s) (progress_bars s')).
Proof.
  unfold attempt. unfold bind at 1.
  use_spec send_request_spec send_request.
  destruct Hspec as (h & n & -> & Hrange & Htr & Hst & Hdc & Hbars & Hfs & Hsf & Hck).
  destruct (r_error (w_stream w n url h)) as [e|].
  - use_spec handle_error_spec handle_error.
    destruct Hspec as (_ & _ & Hspec).
    destruct (max_retries cfg <? retry_count l + 1) eqn:Hmax.
    { destruct Hspec as (-> & _). intros; simplify_eq. }
    destruct (float_overflow_exponent <=? retry_count l + 1) eqn:Hovf.
    { destruct Hspec as (-> & _). intros; simplify_eq. }
    destruct Hspec as (-> & Hst' & Hbars' & n' & Htr'). intros; simplify_eq.
    cbn. rewrite Hst', Hst. repeat split; try lia.
    + exists h, n'. split; [done|]. rewrite Htr', Htr, <- app_assoc. done.
    + intros u. rewrite Hbars', Hbars. apply bar_grows_refl.
  - unfold bind at 1.
    use_spec receive_body_spec receive_body. destruct p as [fsz d'].
    destruct Hspec as (Htr1 & Htk1 & Hdc1 & Hsf1 & Hsu1 & Hfa1 & Hsk1 & Hco1 & Htb1 & Hd1 & Hb1).
    destruct (r_abort (w_stream w n url h)) as [e|].
    + use_spec handle_error_spec handle_error.
      destruct Hspec as (_ & _ & Hspec). cbn [retry_count with_progress] in Hspec.
      destruct (max_retries cfg <? retry_count l + 1) eqn:Hmax.
      { destruct Hspec as (-> & _). intros; simplify_eq. }
      destruct (float_overflow_exponent <=? retry_count l + 1) eqn:Hovf.
      { destruct Hspec as (-> & _). intros; simplify_eq. }
      destruct Hspec as (-> & Hst' & Hbars' & n' & Htr'). intros; simplify_eq.
      cbn. rewrite Hst', Hsu1, Hfa1, Hsk1, Hco1, Htb1, Hst. repeat split; try lia.
      * exists h, n'. split; [done|]. rewrite Htr', Htr1, Htr, <- app_assoc. done.
      * intros u. rewrite Hbars', <- Hbars. apply Hb1.
    + use_spec finish_download_spec finish_download.
      destruct Hspec as (_ & _ & _ & Hspec).
      destruct (_ || _); destruct Hspec as (-> & _); intros; simplify_eq.
Qed.

(** ** A retry after a broken transfer (C10) *)

(** C10 (the code at the failing input).  The server holds a 1500-byte
    resource, sends chunks of 100 bytes and honours [Range: bytes=100-]; the
    first transfer breaks after one chunk.  The first pass of the retry loop
    leaves the 100 bytes in the partial file, keeps [downloaded_bytes = 100]
    and waits [2^1 + r] seconds with [r = 1].  At the retry
    [_get_resume_header] computes [Range: bytes=100-], with which the server
    would send the 1400 missing bytes; but the request that is sent has no
    [Range] header, the server sends the whole resource again, it is appended
    to the partial file, and the job ends as a success with a final file of
    1600 bytes: the first 100 bytes followed by the whole resource.  The
    retry restarts the transfer instead of resuming it. *)
Theorem C10_retry_restarts_the_transfer :
  let w := flaky_world in
  let cfg := small_chunk_config in
  let l1 := {| file_path := "downloads/f.bin"; temp_path := "downloads/f.bin.part";
               downloaded_bytes := 100; retry_count := 1; mode := AB;
               file_size := 1500 |} in
  let '(start, s0) := prepare py_lib w cfg url1 None true (initial_state ∅) in
  let '(step1, s1) := attempt py_lib w cfg url1 true locals1 s0 in
  let '(step2, s2) := attempt py_lib w cfg url1 true l1 s1 in
  let '(r, s') := download_file py_lib w cfg url1 None true (initial_state ∅) in
  (start = inr locals1 ∧ step1 = Continue l1 ∧
   files s1 !! "downloads/f.bin.part" = Some (take 100 resource_1500) ∧
   ∃ h d, trace s1 = trace s0 ++ [EvStreamGet url1 h; EvSleep d] ∧
          (d == inject_Z (2 ^ 1) + 1)%Q) ∧
  (∃ h, fst (_get_resume_header cfg url1 "downloads/f.bin.part" s1) = h ∧
        h !! "Range" = Some "bytes=100-" ∧
        take 100 resource_1500 ++ payload (r_chunks (w_stream w (tick s1) url1 h))
          = resource_1500) ∧
  (∃ h, trace s2 = trace s1 ++ [EvStreamGet url1 h] ∧ h !! "Range" = None ∧
        payload (r_chunks (w_stream w (tick s1) url1 h)) = resource_1500) ∧
  step2 = Return (true, "downloads/f.bin", 1600) ∧ s2 = s' ∧
  r = Some (true, "downloads/f.bin", 1600) ∧
  stream_requests (trace s') = 2%nat ∧
  files s' !! "downloads/f.bin" = Some (take 100 resource_1500 ++ resource_1500) ∧
  files s' !! "downloads/f.bin" ≠ Some resource_1500 ∧
  successful (stats s') = 1 ∧ failed (stats s') = 0.
Proof.
  vm_compute. repeat split; try done.
  - eexists _, _. split; reflexivity.
  - eexists. repeat split; reflexivity.
  - eexists. repeat split; reflexivity.
Qed.
(** ** Sizes learnt during a job (C7) *)

(** Whatever a pass of the retry loop does, a progress bar that is still
    there afterwards has a total at least as large as before. *)
Lemma attempt_bar_total lib w cfg url update_progress l s u b :
  progress_bars s !! u = Some b →
  let '(step, s') := attempt lib w cfg url update_progress l s in
  ∀ b', progress_bars s' !! u = Some b' → pb_total b <= pb_total b'.
Proof.
  intros Hb. unfold attempt. unfold bind at 1.
  use_spec send_request_spec send_request.
  destruct Hspec as (h & n & -> & Hrange & Htr & Hst & Hdc & Hbars & Hfs & Hsf & Hck).
  rewrite <- Hbars in Hb.
  destruct (r_error (w_stream w n url h)) as [e|].
  - use_spec handle_error_spec handle_error.
    destruct Hspec as (_ & _ & Hspec).
    destruct (max_retries cfg <? retry_count l + 1);
      [|destruct (float_overflow_exponent <=? retry_count l + 1)].
    + destruct Hspec as (_ & _ & _ & Hclose). intros b' Hb'.
      apply Hclose in Hb'. simplify_eq. lia.
    + destruct Hspec as (_ & _ & _ & Hclose). intros b' Hb'.
      apply Hclose in Hb'. simplify_eq. lia.
    + destruct Hspec as (_ & _ & Hbars' & _). intros b' Hb'.
      rewrite Hbars' in Hb'. simplify_eq. lia.
  - unfold bind at 1.
    use_spec receive_body_spec receive_body. destruct p as [fsz d'].
    destruct Hspec as (_ & _ & _ & _ & _ & _ & _ & _ & _ & _ & Hb1).
    destruct (Hb1 u b Hb) as (b1 & Hb1' & Hle).
    destruct (r_abort (w_stream w n url h)) as [e|].
    + use_spec handle_error_spec handle_error.
      destruct Hspec as (_ & _ & Hspec). cbn [retry_count with_progress] in Hspec.
      destruct (max_retries cfg <? retry_count l + 1);
        [|destruct (float_overflow_exponent <=? retry_count l + 1)].
      * destruct Hspec as (_ & _ & _ & Hclose). intros b' Hb'.
        apply Hclose in Hb'. simplify_eq. lia.
      * destruct Hspec as (_ & _ & _ & Hclose). intros b' Hb'.
        apply Hclose in Hb'. simplify_eq. lia.
      * destruct Hspec as (_ & _ & Hbars' & _). intros b' Hb'.
        rewrite Hbars' in Hb'. simplify_eq. lia.
    + use_spec finish_download_spec finish_download.
      destruct Hspec as (_ & _ & Hclose & _). intros b' Hb'.
      apply Hclose in Hb'. simplify_eq. lia.
Qed.

(** C7 (as amended).  The total of a job's progress bar never decreases
    during a pass of the retry loop: a size learnt from [Content-Length] is
    combined with the previous total by [max].  A pass that ends in a retry
    keeps the bar. *)
Theorem C7_progress_total_never_decreases lib w cfg url update_progress l s b :
  progress_bars s !! url = Some b →
  let '(step, s') := attempt lib w cfg url update_progress l s in
  (∀ b', progress_bars s' !! url = Some b' → pb_total b <= pb_total b') ∧
  (∀ l', step = Continue l' →
     ∃ b', progress_bars s' !! url = Some b' ∧ pb_total b <= pb_total b').
Proof.
  intros Hb.
  pose proof (attempt_bar_total lib w cfg url update_progress l s url b Hb) as Htot.
  destruct (attempt lib w cfg url update_progress l s) as [step s'] eqn:Hatt.
  split; [done|]. intros l' ->.
  apply attempt_continue in Hatt.
  destruct Hatt as (_&_&_&_&_&_&_&_&_&_&_&_&_&Hgrow).
  apply (Hgrow url b Hb).
Qed.

Lemma C7_witness :
  let s0 := set_progress_bars (fun _ => {[ url1 := {| pb_total := 1500; pb_n := 0 |} ]})
              (initial_state ∅) in
  let '(step, s') := attempt py_lib breaking_world base_config url1 true locals1 s0 in
  (∀ b', progress_bars s' !! url1 = Some b' → 1500 <= pb_total b') ∧
  (∀ l', step = Continue l' →
     ∃ b', progress_bars s' !! url1 = Some b' ∧ 1500 <= pb_total b').
Proof.
  apply (C7_progress_total_never_decreases py_lib breaking_world base_config url1 true
           locals1 _ {| pb_total := 1500; pb_n := 0 |}).
  reflexivity.
Defined.

(** The claim as stated fails for the job's own [file_size]: the probe
    finds no [Content-Length] and yields the 1 MiB placeholder; the response
    of the download then announces 2000 bytes and [file_size] becomes 2000. *)
Lemma C7_counterexample :
  ∃ l s1 l' s2,
    prepare py_lib breaking_world base_config url1 None true (initial_state ∅)
      = (inr l, s1) ∧
    attempt py_lib breaking_world base_config url1 true l s1 = (Continue l', s2) ∧
    file_size l = 1048576 ∧ file_size l' = 2000 ∧ file_size l' < file_size l.
Proof.
  do 4 eexists. split; [vm_compute; reflexivity|].
  split; [vm_compute; reflexivity|]. cbn. lia.
Qed.
(** ** Before the retry loop *)

Lemma calm_refl P s : calm P s s.
Proof. repeat split. exists []. by rewrite app_nil_r. Qed.

Lemma calm_trans P s1 s2 s3 : calm P s1 s2 → calm P s2 s3 → calm P s1 s3.
Proof.
  intros (Hst & Hfs & Hsf & Hb & t & Ht & HP) (Hst' & Hfs' & Hsf' & Hb' & t' & Ht' & HP').
  repeat split; try congruence.
  exists (t ++ t'). split; [by rewrite Ht', Ht, app_assoc|]. by apply Forall_app.
Qed.

Lemma calm_mono (P Q : Event → bool) s s' :
  (∀ e, P e = true → Q e = true) → calm P s s' → calm Q s s'.
Proof.
  intros HPQ (?&?&?&?& t & ? & HP). repeat split; try done.
  exists t. split; [done|]. eapply Forall_impl; eauto.
Qed.

Lemma calm_event (P : Event → bool) e s :
  P e = true → calm P s (log_event e s).
Proof. intros He. repeat split. exists [e]. split; [done|]. by constructor. Qed.

Lemma calm_quiet P s s' :
  stats s' = stats s → files s' = files s → state_file s' = state_file s →
  progress_bars s' = progress_bars s → trace s' = trace s → calm P s s'.
Proof. intros. repeat split; try done. exists []. by rewrite app_nil_r. Qed.

(** Goals [calm P s s'] where [s'] is [s] after explicit updates. *)
Ltac calm_direct :=
  cbn; repeat split; try done;
  first [ exists []; split; [by rewrite app_nil_r | constructor]
        | eexists; split; [cbn; rewrite <- ?app_assoc; reflexivity
                          | repeat constructor ] ].

Lemma check_domain_cooldown_calm lib w cfg url s :
  calm is_sleep s (snd (_check_domain_cooldown lib w cfg url s)).
Proof.
  unfold _check_domain_cooldown. munfold.
  destruct (urlparse lib url) as [r|]; [|apply calm_refl].
  destruct (domain_cooldown s !! netloc r) as [[last cd]|]; cbn.
  - destruct (Qltb (clock s - last) cd); calm_direct.
  - calm_direct.
Qed.

Lemma enhance_headers_calm P lib w cfg url s :
  calm P s (snd (_enhance_headers lib w cfg url s)).
Proof.
  pose proof (enhance_headers_spec lib w cfg url s) as H.
  destruct (_enhance_headers lib w cfg url s) as [h s']. cbn.
  destruct H as (?&?&?&?&?&?&?&?). by apply calm_quiet.
Qed.

Lemma fetch_content_type_calm lib w cfg url s :
  calm is_head s (snd (fetch_content_type lib w cfg url s)).
Proof.
  unfold fetch_content_type, request_head. unfold bind at 1.
  pose proof (enhance_headers_calm is_head lib w cfg url s) as H.
  destruct (_enhance_headers lib w cfg url s) as [h s1]. cbn in H.
  eapply calm_trans; [apply H|]. munfold. cbn.
  destruct (m_error _); calm_direct.
Qed.

Lemma get_filename_from_url_state lib cfg url s :
  snd (_get_filename_from_url lib cfg url s) = s.
Proof.
  unfold _get_filename_from_url. munfold.
  destruct (filename_map cfg !! url); [done|].
  destruct (String.eqb _ ""); cbn; reflexivity.
Qed.

Lemma resolve_filename_calm lib w cfg url filename s :
  calm is_head s (snd (resolve_filename lib w cfg url filename s)).
Proof.
  unfold resolve_filename. unfold bind at 1.
  assert (∃ name, (match filename with
           | Some filename0 =>
               match default_suffix cfg with
               | Some suffix =>
                   if force_suffix cfg && truthy (default_suffix cfg)
                   then ret (fst (splitext lib filename0) +:+ dotted suffix)
                   else ret filename0
               | None => ret filename0
               end
           | None => _get_filename_from_url lib cfg url
           end) s = (name, s)) as [name ->].
  { destruct filename as [f|].
    - destruct (default_suffix cfg); [destruct (_ && _)|]; eexists; reflexivity.
    - eexists. rewrite (surjective_pairing (_get_filename_from_url _ _ _ _)).
      by rewrite get_filename_from_url_state. }
  destruct (_ && _); [|apply calm_refl].
  unfold bind at 1.
  pose proof (fetch_content_type_calm lib w cfg url s) as H.
  destruct (fetch_content_type lib w cfg url s) as [ct s1]. cbn in H.
  eapply calm_trans; [apply H|].
  destruct (default_suffix cfg); [destruct (_ && _)|]; apply calm_refl.
Qed.

Lemma locate_file_calm lib w cfg url filename s :
  calm sleep_or_head s (snd (locate_file lib w cfg url filename s)).
Proof.
  unfold locate_file. unfold bind at 1.
  pose proof (check_domain_cooldown_calm lib w cfg url s) as H1.
  destruct (_check_domain_cooldown lib w cfg url s) as [[] s1]. cbn in H1.
  eapply calm_trans.
  { eapply calm_mono; [|apply H1]. intros e He. unfold sleep_or_head. by rewrite He. }
  assert (∀ e, is_head e = true → sleep_or_head e = true) as Hhead.
  { intros e He. unfold sleep_or_head. rewrite He. apply orb_true_r. }
  destruct (random_delay cfg).
  - munfold. cbn.
    eapply calm_trans; [|eapply calm_mono; [apply Hhead|apply resolve_filename_calm]].
    calm_direct.
  - munfold. cbn. eapply calm_mono; [apply Hhead|apply resolve_filename_calm].
Qed.

Lemma fetch_file_size_calm lib w cfg url s :
  calm no_stream s (snd (fetch_file_size lib w cfg url s)).
Proof.
  unfold fetch_file_size, request_head, request_probe. unfold bind at 1.
  pose proof (enhance_headers_calm no_stream lib w cfg url s) as H.
  destruct (_enhance_headers lib w cfg url s) as [h s1]. cbn in H.
  eapply calm_trans; [apply H|]. munfold. cbn.
  repeat match goal with
  | |- context [match ?x with _ => _ end] =>
      match type of x with option _ => destruct x; cbn end
  end.
  all: calm_direct.
Qed.
Lemma prepare_spec lib w cfg url filename update_progress s :
  let '(r, s1) := prepare lib w cfg url filename update_progress s in
  if bool_decide (url ∈ completed_urls (stats s)) then
    (∃ name, r = inl (true, path_join (output_dir cfg) name, 0)) ∧
    stats s1 = add_skipped (stats s) ∧ files s1 = files s ∧ trace s1 = trace s
  else
    let p := final_path lib w cfg url filename s in
    if bool_decide (is_Some (files s !! p)) && negb (overwrite cfg) then
      r = inl (true, p, 0) ∧
      stats s1 = add_completed url (add_skipped (stats s)) ∧ files s1 = files s ∧
      ∃ t, trace s1 = trace s ++ t ∧ Forall (λ e, sleep_or_head e = true) t
    else
      (∃ t, trace s1 = trace s ++ t ∧ Forall (λ e, no_stream e = true) t) ∧
      match r with
      | inl o =>
          ∃ sz, o = (true, p, sz) ∧
                stats s1 = add_completed url (add_successful (stats s))
      | inr l =>
          retry_count l = 0 ∧ stats s1 = stats s ∧ files s1 = files s ∧
          file_path l = p ∧ temp_path l = part_path p
      end.
Proof.
  unfold prepare. munfold. cbn.
  destruct (bool_decide (url ∈ completed_urls (stats s))).
  { cbn. destruct (truthy filename); cbn.
    - repeat split; eauto.
    - rewrite (surjective_pairing (_get_filename_from_url _ _ _ _)).
      rewrite get_filename_from_url_state. cbn. repeat split; eauto. }
  unfold final_path.
  pose proof (locate_file_calm lib w cfg url filename s) as Hloc.
  destruct (locate_file lib w cfg url filename s) as [name s0]. cbn [fst snd] in *.
  destruct Hloc as (Hst0 & Hfs0 & Hsf0 & Hb0 & t0 & Ht0 & HP0).
  rewrite Hfs0.
  destruct (bool_decide (is_Some (files s !! path_join (output_dir cfg) name))
            && negb (overwrite cfg)); cbn.
  { munfold. split_tests; cbn; repeat split; try congruence; eauto. }
  pose proof (fetch_file_size_calm lib w cfg url s0) as Hsz.
  destruct (fetch_file_size lib w cfg url s0) as [sz s2]. cbn [fst snd] in *.
  destruct Hsz as (Hst2 & Hfs2 & Hsf2 & Hb2 & t2 & Ht2 & HP2).
  assert (Forall (λ e, no_stream e = true) (t0 ++ t2)) as Hno.
  { apply Forall_app. split; [|done]. eapply Forall_impl; [apply HP0|].
    intros [] ; cbn; done. }
  assert (trace s2 = trace s ++ (t0 ++ t2)) as Htr2 by (by rewrite Ht2, Ht0, app_assoc).
  unfold _create_progress_bar, _update_progress_bar, _close_progress_bar, rename.
  munfold.
  repeat (match goal with
  | |- context [if ?b then _ else _] =>
      match type of b with bool => destruct b eqn:?; cbn end
  | |- context [match files ?s !! ?p with _ => _ end] => destruct (files s !! p) eqn:?; cbn
  end; munfold; cbn in *).
  all: split; [eexists; split; [|apply Hno]; congruence|].
  all: repeat split; try congruence; eauto.
  all: eexists; split; [reflexivity|]; congruence.
Qed.
(** ** Skipping what is already there (C9) *)

(** C9.  With overwrite disabled, a job whose final file exists is skipped:
    [download_file] returns success with zero bytes, [skipped] grows by one,
    no other counter and no file changes, and the only things that happen on
    the way are waits and HEAD requests; no GET is sent.  (The same holds,
    whatever is on disk, for a URL already in [completed_urls].) *)
Theorem C9_existing_file_is_skipped lib w cfg url filename update_progress s :
  _validate_url lib url = true →
  overwrite cfg = false →
  is_Some (files s !! final_path lib w cfg url filename s) →
  let '(r, s') := download_file lib w cfg url filename update_progress s in
  (∃ p, r = Some (true, p, 0) ∧
        (url ∉ completed_urls (stats s) →
         p = final_path lib w cfg url filename s ∧ url ∈ completed_urls (stats s'))) ∧
  skipped (stats s') = skipped (stats s) + 1 ∧
  successful (stats s') = successful (stats s) ∧
  failed (stats s') = failed (stats s) ∧
  total_bytes (stats s') = total_bytes (stats s) ∧
  files s' = files s ∧
  ∃ t, trace s' = trace s ++ t ∧ Forall (λ e, sleep_or_head e = true) t.
Proof.
  intros Hvalid Hover Hexists. unfold download_file. rewrite Hvalid. cbn [negb].
  unfold bind.
  pose proof (prepare_spec lib w cfg url filename update_progress s) as Hprep.
  destruct (prepare lib w cfg url filename update_progress s) as [r s1].
  destruct (bool_decide (url ∈ completed_urls (stats s))) eqn:Hdone.
  - destruct Hprep as ((name & ->) & Hst & Hfs & Htr). apply bool_decide_eq_true in Hdone.
    unfold ret. cbn. rewrite Hst. cbn. repeat split; try done.
    + eexists. split; [done|]. intros Hnot. done.
    + exists []. by rewrite app_nil_r.
  - apply bool_decide_eq_false in Hdone.
    cbn zeta in Hprep. rewrite bool_decide_eq_true_2, Hover in Hprep by done.
    destruct Hprep as (-> & Hst & Hfs & Htr).
    unfold ret. cbn. rewrite Hst. cbn. repeat split; try done.
    eexists. split; [done|]. intros _. split; [done|].
    apply elem_of_union. left. by apply elem_of_singleton.
Qed.

Lemma C9_witness :
  let s := initial_state {[ "downloads/f.bin" := resource_1500 ]} in
  let '(r, s') := download_file py_lib (range_server resource_1500 [])
                    base_config url1 None true s in
  (∃ p, r = Some (true, p, 0) ∧
        (url1 ∉ completed_urls (stats s) →
         p = final_path py_lib (range_server resource_1500 []) base_config url1 None s
         ∧ url1 ∈ completed_urls (stats s'))) ∧
  skipped (stats s') = skipped (stats s) + 1 ∧
  successful (stats s') = successful (stats s) ∧
  failed (stats s') = failed (stats s) ∧
  total_bytes (stats s') = total_bytes (stats s) ∧
  files s' = files s ∧
  ∃ t, trace s' = trace s ++ t ∧ Forall (λ e, sleep_or_head e = true) t.
Proof.
  apply (C9_existing_file_is_skipped py_lib (range_server resource_1500 [])
           base_config url1 None true
           (initial_state {[ "downloads/f.bin" := resource_1500 ]})).
  - reflexivity.
  - reflexivity.
  - vm_compute. eexists. reflexivity.
Defined.
(** ** The retry bound (C5) *)

Lemma stream_requests_app t1 t2 :
  stream_requests (t1 ++ t2) = (stream_requests t1 + stream_requests t2)%nat.
Proof. unfold stream_requests. by rewrite List.filter_app, length_app. Qed.

Lemma sleeps_app t1 t2 : sleeps (t1 ++ t2) = (sleeps t1 + sleeps t2)%nat.
Proof. unfold sleeps. by rewrite List.filter_app, length_app. Qed.

Lemma stream_requests_none t :
  Forall (λ e, no_stream e = true) t → stream_requests t = 0%nat.
Proof.
  unfold stream_requests, no_stream. induction 1 as [|e t He _ IH]; [done|].
  cbn. apply negb_true_iff in He. by rewrite He.
Qed.

Lemma attempt_failing lib w cfg url update_progress l s :
  always_fails w url →
  let '(step, s') := attempt lib w cfg url update_progress l s in
  ∃ t, trace s' = trace s ++ t ∧ stream_requests t = 1%nat ∧
  if max_retries cfg <? retry_count l + 1 then
    (∃ d, step = Return (false, file_path l, d)) ∧
    failed (stats s') = failed (stats s) + 1 ∧ sleeps t = 0%nat
  else if float_overflow_exponent <=? retry_count l + 1 then
    step = Return (false, "", 0) ∧
    failed (stats s') = failed (stats s) + 1 ∧ sleeps t = 0%nat
  else
    (∃ l', step = Continue l' ∧ retry_count l' = retry_count l + 1 ∧
           file_path l' = file_path l) ∧
    failed (stats s') = failed (stats s) ∧ sleeps t = 1%nat.
Proof.
  intros Hfail. unfold attempt. unfold bind at 1.
  use_spec send_request_spec send_request.
  destruct Hspec as (h & n & -> & Hrange & Htr & Hst & Hdc & Hbars & Hfs & Hsf & Hck).
  destruct (r_error (w_stream w n url h)) as [e|] eqn:Herr.
  - use_spec handle_error_spec handle_error.
    destruct Hspec as (_ & _ & Hspec).
    destruct (max_retries cfg <? retry_count l + 1);
      [|destruct (float_overflow_exponent <=? retry_count l + 1)].
    + destruct Hspec as (-> & Hst' & Htr' & _).
      exists [EvStreamGet url h]. rewrite Htr', Htr, Hst', Hst. cbn. eauto 10.
    + destruct Hspec as (-> & Hst' & Htr' & _).
      exists [EvStreamGet url h]. rewrite Htr', Htr, Hst', Hst. cbn. eauto 10.
    + destruct Hspec as (-> & Hst' & _ & n' & Htr').
      eexists [EvStreamGet url h; _].
      rewrite Htr', Htr, Hst', Hst, <- app_assoc. cbn. eauto 10.
  - unfold bind at 1.
    use_spec receive_body_spec receive_body. destruct p as [fsz d'].
    destruct Hspec as (Htr1 & _ & _ & _ & _ & Hfa1 & _).
    destruct (r_abort (w_stream w n url h)) as [e|] eqn:Habort.
    + use_spec handle_error_spec handle_error.
      destruct Hspec as (_ & _ & Hspec). cbn [retry_count with_progress] in Hspec.
      destruct (max_retries cfg <? retry_count l + 1);
        [|destruct (float_overflow_exponent <=? retry_count l + 1)].
      * destruct Hspec as (-> & Hst' & Htr' & _).
        exists [EvStreamGet url h]. rewrite Htr', Htr1, Htr, Hst'. cbn.
        rewrite Hfa1, Hst. eauto 10.
      * destruct Hspec as (-> & Hst' & Htr' & _).
        exists [EvStreamGet url h]. rewrite Htr', Htr1, Htr, Hst'. cbn.
        rewrite Hfa1, Hst. eauto 10.
      * destruct Hspec as (-> & Hst' & _ & n' & Htr').
        eexists [EvStreamGet url h; _].
        rewrite Htr', Htr1, Htr, Hst', Hfa1, Hst, <- app_assoc. cbn. eauto 10.
    + destruct (Hfail n h) as [[? H]|[? H]]; congruence.
Qed.

Lemma stream_loop_all_fail lib w cfg url update_progress fuel :
  always_fails w url →
  max_retries cfg < float_overflow_exponent →
  ∀ l s,
  retry_count l <= max_retries cfg →
  fuel = Z.to_nat (max_retries cfg + 1 - retry_count l) →
  let '(r, s') := stream_loop lib w cfg fuel url update_progress l s in
  ∃ d t, r = Some (false, file_path l, d) ∧
         failed (stats s') = failed (stats s) + 1 ∧
         trace s' = trace s ++ t ∧
         stream_requests t = fuel ∧ S (sleeps t) = fuel.
Proof.
  intros Hfail Hbound. induction fuel as [|fuel IH]; intros l s Hle Hfuel; [lia|].
  cbn [stream_loop]. rewrite (proj2 (Z.leb_le _ _) Hle). unfold bind.
  pose proof (attempt_failing lib w cfg url update_progress l s Hfail) as Hatt.
  destruct (attempt lib w cfg url update_progress l s) as [step s1].
  destruct Hatt as (t & Htr & Hreq & Hatt).
  destruct (max_retries cfg <? retry_count l + 1) eqn:Hmax.
  - apply Z.ltb_lt in Hmax. destruct Hatt as ((d & ->) & Hfa & Hsl).
    exists d, t. unfold ret. repeat split; try done; lia.
  - apply Z.ltb_ge in Hmax.
    rewrite (proj2 (Z.leb_gt _ _)) in Hatt by lia.
    destruct Hatt as ((l' & -> & Hrc & Hfp) & Hfa & Hsl).
    specialize (IH l' s1).
    destruct (stream_loop lib w cfg fuel url update_progress l' s1) as [r s'].
    destruct IH as (d & t' & -> & Hfa' & Htr' & Hreq' & Hsl'); [lia|lia|].
    exists d, (t ++ t'). rewrite Hfp, Hfa', Hfa, Htr', Htr, app_assoc.
    rewrite stream_requests_app, sleeps_app. repeat split; try done; lia.
Qed.

(** From [2 ** 1024] on the backoff cannot be computed: a loop whose every
    request fails and that is allowed at least 1024 retries ends at retry
    1024, without waiting again, with the result of the outer handler. *)
Lemma stream_loop_overflow lib w cfg url update_progress (k : nat) :
  always_fails w url →
  float_overflow_exponent <= max_retries cfg →
  ∀ fuel l s,
  0 <= retry_count l →
  Z.of_nat (S k) = float_overflow_exponent - retry_count l →
  (S k <= fuel)%nat →
  let '(r, s') := stream_loop lib w cfg fuel url update_progress l s in
  ∃ t, r = Some (false, "", 0) ∧
       failed (stats s') = failed (stats s) + 1 ∧
       trace s' = trace s ++ t ∧
       stream_requests t = S k ∧ sleeps t = k.
Proof.
  intros Hfail Hbound. induction k as [|k IH]; intros fuel l s Hrc Hk Hfuel.
  all: destruct fuel as [|fuel]; [lia|].
  all: cbn [stream_loop]; rewrite (proj2 (Z.leb_le _ _)) by lia; unfold bind.
  all: pose proof (attempt_failing lib w cfg url update_progress l s Hfail) as Hatt.
  all: destruct (attempt lib w cfg url update_progress l s) as [step s1].
  all: destruct Hatt as (t & Htr & Hreq & Hatt).
  all: rewrite (proj2 (Z.ltb_ge _ _)) in Hatt by lia.
  - rewrite (proj2 (Z.leb_le _ _)) in Hatt by lia.
    destruct Hatt as (-> & Hfa & Hsl). exists t. unfold ret. done.
  - rewrite (proj2 (Z.leb_gt _ _)) in Hatt by lia.
    destruct Hatt as ((l' & -> & Hrc' & Hfp) & Hfa & Hsl).
    specialize (IH fuel l' s1).
    destruct (stream_loop lib w cfg fuel url update_progress l' s1) as [r s'].
    destruct IH as (t' & -> & Hfa' & Htr' & Hreq' & Hsl'); [lia|lia|lia|].
    exists (t ++ t'). rewrite Hfa', Hfa, Htr', Htr, app_assoc.
    rewrite stream_requests_app, sleeps_app. repeat split; try done; lia.
Qed.

(** C5.  A job that reaches the retry loop and whose every download request
    ends in an exception sends [max_retries + 1] requests, one initial
    attempt and [max_retries] retries each preceded by a backoff wait, then
    returns failure; [failed] has grown by exactly one.  This holds for
    every [max_retries] from 0 to 1023, the range in which the backoff
    [2 ** retry_count + random.uniform(0, 2)] can be computed. *)
Theorem C5_retry_bound lib w cfg url filename update_progress s l s1 :
  _validate_url lib url = true →
  0 <= max_retries cfg →
  max_retries cfg < 1024 →
  prepare lib w cfg url filename update_progress s = (inr l, s1) →
  always_fails w url →
  let '(r, s') := download_file lib w cfg url filename update_progress s in
  ∃ d t, r = Some (false, file_path l, d) ∧
         failed (stats s') = failed (stats s) + 1 ∧
         trace s' = trace s1 ++ t ∧
         stream_requests (trace s1) = stream_requests (trace s) ∧
         Z.of_nat (stream_requests t) = max_retries cfg + 1 ∧
         Z.of_nat (sleeps t) = max_retries cfg.
Proof.
  intros Hvalid Hmax Hbound Hprep Hfail. unfold download_file. rewrite Hvalid. cbn [negb].
  unfold bind.
  pose proof (prepare_spec lib w cfg url filename update_progress s) as Hspec.
  rewrite Hprep in *.
  destruct (bool_decide (url ∈ completed_urls (stats s))).
  { destruct Hspec as ((? & ?) & _). done. }
  cbn zeta in Hspec. destruct (_ && _); [by destruct Hspec|].
  destruct Hspec as ((t0 & Ht0 & Hno) & Hrc & Hst & _).
  pose proof (stream_loop_all_fail lib w cfg url update_progress
                (Z.to_nat (max_retries cfg + 1 - retry_count l)) Hfail Hbound l s1) as Hloop.
  specialize (Hloop ltac:(lia) eq_refl).
  destruct (stream_loop _ _ _ _ _ _ _ _) as [r s'].
  destruct Hloop as (d & t & -> & Hfa & Htr & Hreq & Hsl).
  exists d, t. repeat split; try done; try lia.
  - by rewrite Hfa, Hst.
  - rewrite Ht0, stream_requests_app, (stream_requests_none t0) by done. lia.
Qed.

Lemma C5_witness :
  let w := failing_world RequestError in
  let s := initial_state ∅ in
  let '(r, s') := download_file py_lib w base_config url1 None true s in
  let l := match fst (prepare py_lib w base_config url1 None true s) with
           | inr l => l | inl _ => locals1 end in
  let s1 := snd (prepare py_lib w base_config url1 None true s) in
  ∃ d t, r = Some (false, file_path l, d) ∧
         failed (stats s') = failed (stats s) + 1 ∧
         trace s' = trace s1 ++ t ∧
         stream_requests (trace s1) = stream_requests (trace s) ∧
         Z.of_nat (stream_requests t) = max_retries base_config + 1 ∧
         Z.of_nat (sleeps t) = max_retries base_config.
Proof.
  apply (C5_retry_bound py_lib (failing_world RequestError) base_config url1 None true
           (initial_state ∅)).
  - reflexivity.
  - cbn. lia.
  - cbn. lia.
  - vm_compute. reflexivity.
  - intros n h. left. cbn. eauto.
Defined.
(** ** Resuming a partial download (C1) *)

(** C1 (the code at the failing input).  A 500-byte partial file exists for
    a 1500-byte resource, resume is on, and the server honours
    [Range: bytes=500-].  [_get_resume_header] computes that header, but the
    request that is sent has no [Range] header; the server sends all 1500
    bytes, they are appended to the partial file, and the final file has 2000
    bytes: the first 500 bytes followed by the whole resource. *)
Theorem C1_resume_request_has_no_range :
  let w := range_server resource_1500 [500] in
  let s := initial_state partial_500 in
  let '(r, s') := download_file py_lib w base_config url1 None true s in
  fst (_get_resume_header base_config url1 "downloads/f.bin.part" s) !! "Range"
    = Some "bytes=500-" ∧
  stream_requests (trace s') = 1%nat ∧
  Forall (λ e, match e with
               | EvStreamGet _ h => h !! "Range" = None
               | _ => True
               end) (trace s') ∧
  r = Some (true, "downloads/f.bin", 2000) ∧
  files s' !! "downloads/f.bin" = Some (take 500 resource_1500 ++ resource_1500) ∧
  files s' !! "downloads/f.bin" ≠ Some resource_1500 ∧
  total_bytes (stats s') = 1500.
Proof.
  vm_compute. repeat split; try done. repeat constructor.
Qed.
(** ** The map returned by a batch (C2) *)

Lemma collect_lookup results out url :
  collect results out !! url
    = match out with
      | (u, success, file_path, _) =>
          if success && String.eqb u url then Some file_path else results !! url
      end.
Proof.
  destruct out as [[[u success] p] b]. unfold collect.
  destruct success; cbn; [|done].
  destruct (String.eqb_spec u url) as [->|Hne].
  - by rewrite lookup_insert_eq.
  - by rewrite lookup_insert_ne.
Qed.

Lemma last_success_snoc url outs u success p b :
  last_success url (outs ++ [(u, success, p, b)])
    = if success && String.eqb u url then Some p else last_success url outs.
Proof. unfold last_success. by rewrite foldl_app. Qed.

Lemma foldl_collect_lookup outs init url :
  foldl collect init outs !! url
    = match last_success url outs with
      | Some p => Some p
      | None => init !! url
      end.
Proof.
  induction outs as [|[[[u success] p] b] outs IH] using rev_ind; [done|].
  rewrite foldl_app, last_success_snoc. cbn [foldl]. rewrite collect_lookup, IH.
  by destruct (success && String.eqb u url).
Qed.


Lemma last_success_elem url outs p :
  last_success url outs = Some p → ∃ b, (url, true, p, b) ∈ outs.
Proof.
  induction outs as [|[[[u success] p'] b] outs IH] using rev_ind; [done|].
  rewrite last_success_snoc. setoid_rewrite elem_of_app.
  setoid_rewrite list_elem_of_singleton.
  destruct success; cbn.
  - destruct (String.eqb_spec u url) as [->|Hne].
    + intros [= ->]. eauto.
    + intros H. destruct (IH H) as [b' ?]. eauto.
  - intros H. destruct (IH H) as [b' ?]. eauto.
Qed.

(** The map built by the tasks of a batch is the aggregation of their
    results. *)
Lemma run_tasks_outcomes lib w cfg jobs :
  ∀ completed total init s,
  (run_tasks lib w cfg jobs completed total init s).1
    = foldl collect init (task_outcomes lib w cfg jobs completed total s).
Proof.
  induction jobs as [|[url name] jobs IH]; intros completed total init s; [done|].
  cbn [run_tasks task_outcomes]. unfold bind at 1.
  destruct (limited_download lib w cfg url name s) as [out s1].
  unfold bind at 1. cbn [foldl].
  destruct (((completed + 1) mod 10 =? 0) || (completed + 1 =? total)).
  - destruct (_save_state w s1) as [[] s2]. cbn [snd]. apply IH.
  - unfold ret at 1. apply IH.
Qed.

Lemma select_fst_filter keep urls filenames :
  (select keep urls filenames).1 = List.filter keep urls.
Proof.
  unfold select. cbn.
  enough (∀ (g : nat → nat),
            snd <$> List.filter (λ '(_, url), keep url) (imap (λ i url, (g i, url)) urls)
            = List.filter keep urls) as H by apply (H id).
  induction urls as [|u urls IH]; intros g; [done|].
  cbn. destruct (keep u); cbn; f_equal; apply (IH (g ∘ S)).
Qed.

Lemma filter_all_length {A} (f : A → bool) (l : list A) :
  (length l <= length (List.filter f l))%nat → List.filter f l = l.
Proof.
  induction l as [|x l IH]; [done|]. cbn.
  pose proof (List.filter_length_le f l).
  destruct (f x); cbn; intros Hlen; [f_equal; apply IH; lia|lia].
Qed.

Lemma filter_valid_fst lib urls filenames :
  (filter_valid lib urls filenames).1 = List.filter (_validate_url lib) urls.
Proof.
  unfold filter_valid.
  pose proof (select_fst_filter (_validate_url lib) urls filenames) as Hsel.
  destruct (select _ urls filenames) as [valid_urls valid_filenames]. cbn in Hsel.
  subst valid_urls.
  destruct (_ <? _)%nat eqn:Hlt; cbn; [done|].
  apply Nat.ltb_ge in Hlt. symmetry. by apply filter_all_length.
Qed.

Lemma filter_remaining_fst cfg completed urls filenames :
  (filter_remaining cfg completed urls filenames).1
    = List.filter (λ url, negb (continue_from_state cfg)
                          || negb (bool_decide (url ∈ completed))) urls.
Proof.
  unfold filter_remaining. destruct (continue_from_state cfg); cbn [negb orb].
  - match goal with
    | |- context [select ?k ?us ?fs] =>
        pose proof (select_fst_filter k us fs) as Hsel;
        destruct (select k us fs) as [rem_urls rem_filenames]
    end.
    cbn in Hsel. subst rem_urls.
    destruct (_ <? _)%nat eqn:Hlt; cbn; [done|].
    apply Nat.ltb_ge in Hlt. symmetry. by apply filter_all_length.
  - cbn. induction urls as [|u urls IH]; cbn; [done|]. by f_equal.
Qed.

Lemma make_jobs_fst urls filenames : fst <$> make_jobs urls filenames = urls.
Proof.
  unfold make_jobs.
  enough (∀ (f : nat → string → option string),
            fst <$> imap (λ i url, (url, f i url)) urls = urls) as H by apply H.
  induction urls as [|u urls IH]; intros f; [done|].
  cbn. f_equal. apply (IH (λ i, f (S i))).
Qed.

Lemma limited_download_url lib w cfg url name s :
  (limited_download lib w cfg url name s).1.1.1.1 = url.
Proof.
  unfold limited_download. unfold bind at 1.
  destruct (download_file lib w cfg url name true s) as [[[[success p] b]|] s1]; [done|].
  unfold _close_progress_bar. munfold. done.
Qed.

Lemma batch_jobs_fst lib cfg completed urls filenames :
  fst <$> batch_jobs lib cfg completed urls filenames
    = batch_urls lib cfg completed urls.
Proof.
  unfold batch_jobs, batch_urls.
  pose proof (filter_valid_fst lib urls filenames) as Hvalid.
  destruct (filter_valid lib urls filenames) as [urls1 filenames1]. cbn in Hvalid.
  rewrite <- Hvalid.
  match goal with
  | |- context [filter_remaining cfg ?c ?us ?fs] =>
      pose proof (filter_remaining_fst cfg c us fs) as Hrem;
      destruct (filter_remaining cfg c us fs) as [urls2 filenames2]; cbn in Hrem
  end.
  rewrite <- Hrem. apply make_jobs_fst.
Qed.

(** Each task reports the URL of its job. *)
Lemma task_outcomes_urls lib w cfg jobs :
  ∀ completed total s,
  result_url <$> task_outcomes lib w cfg jobs completed total s = fst <$> jobs.
Proof.
  induction jobs as [|[url name] jobs IH]; intros completed total s; [done|].
  cbn [task_outcomes].
  pose proof (limited_download_url lib w cfg url name s) as Hurl.
  destruct (limited_download lib w cfg url name s) as [out s1].
  cbn [fmap list_fmap fst]. f_equal; [done|]. apply IH.
Qed.

(** How [download_batch] ends, and with which map. *)
Lemma download_batch_outcome lib w cfg urls filenames s :
  (download_batch lib w cfg urls filenames s).1
    = let jobs := batch_jobs lib cfg (completed_urls (stats s)) urls filenames in
      match List.filter (_validate_url lib) urls with
      | [] => BatchReturned ∅
      | _ :: _ =>
          if max_workers cfg <? 0 then BatchRaised
          else if (max_workers cfg =? 0) && negb (length jobs =? 0)%nat
               then BatchBlocked
               else BatchReturned
                      (foldl collect ∅
                         (task_outcomes lib w cfg jobs 0 (Z.of_nat (length jobs))
                            (batch_start cfg s)))
      end.
Proof.
  unfold download_batch, batch_jobs, batch_start.
  pose proof (filter_valid_fst lib urls filenames) as Hvalid.
  destruct urls as [|u0 urls0]; [done|].
  remember (u0 :: urls0) as urls eqn:Hurls. clear Hurls.
  destruct (filter_valid lib urls filenames) as [urls1 filenames1]. cbn in Hvalid.
  rewrite <- Hvalid. clear Hvalid.
  destruct urls1 as [|u1 urls1']; [done|].
  remember (u1 :: urls1') as urls1 eqn:Hurls1. clear Hurls1.
  unfold bind at 1. unfold gets at 1.
  destruct (filter_remaining cfg _ urls1 _) as [urls2 filenames2].
  cbn zeta. munfold. unfold gets.
  destruct (continue_from_state cfg); cbn [negb].
  all: destruct (max_workers cfg <? 0); [done|].
  all: destruct ((max_workers cfg =? 0) && _); [done|].
  all: match goal with
       | |- context [run_tasks ?li ?wo ?cf ?jobs ?c ?t ?init ?st] =>
           pose proof (run_tasks_outcomes li wo cf jobs c t init st) as Hrun;
           destruct (run_tasks li wo cf jobs c t init st) as [results s1]
       end.
  all: cbn in Hrun; subst results.
  all: match goal with
       | |- context [_cleanup_progress_bars ?cf ?st] =>
           destruct (_cleanup_progress_bars cf st) as [[] s2]
       end.
  all: match goal with
       | |- context [_save_state ?wo ?st] => destruct (_save_state wo st) as [[] s3]
       end.
  all: done.
Qed.



(** ** The exit status (C4) *)

Lemma init_downloader_completed cfg s :
  completed_urls (stats (init_downloader cfg s).2) = loaded_completed cfg s.
Proof. unfold init_downloader, loaded_completed. munfold. cbn. by destruct (state_file s). Qed.

(** C4 (as amended).  The exit status of a run that is not interrupted does
    not depend on how many jobs failed.  It is 0 when no URL is given, when
    no given URL is valid, and after every batch [download_batch] returns
    from.  It is 1 when there is something to download and an exception
    escapes the construction of the downloader or [download_batch]: the
    latter happens exactly for a negative number of workers and at least one
    valid URL.  With 0 workers and at least one job to run, the run never
    ends by itself. *)
Theorem C4_exit_status lib w args s :
  let urls := a_urls args ++ a_file_urls args in
  let cfg := config_of args in
  fst (run_script lib w args s)
    = match urls with
      | [] => Some 0
      | _ :: _ =>
          if negb (w_init_ok w) then Some 1
          else
            match List.filter (_validate_url lib) urls with
            | [] => Some 0
            | _ :: _ =>
                if a_workers args <? 0 then Some 1
                else if (a_workers args =? 0)
                        && negb (length (batch_urls lib cfg (loaded_completed cfg s) urls)
                                 =? 0)%nat
                     then None
                     else Some 0
            end
      end.
Proof.
  intros urls cfg. unfold run_script, main. fold urls. fold cfg.
  destruct urls as [|u urls0] eqn:Hurls; [done|]. rewrite <- Hurls. clear Hurls.
  destruct (w_init_ok w); [|done]. cbn [negb].
  unfold bind.
  pose proof (init_downloader_completed cfg s) as Hinit.
  destruct (init_downloader cfg s) as [[] s1]. cbn in Hinit.
  pose proof (download_batch_outcome lib w cfg urls None s1) as Hout.
  destruct (download_batch lib w cfg urls None s1) as [outcome s2].
  cbn in Hout. subst outcome. rewrite Hinit.
  rewrite <- (length_fmap fst), batch_jobs_fst.
  destruct (List.filter (_validate_url lib) urls).
  { destruct (_cleanup_progress_bars cfg s2) as [[] s3]. done. }
  change (max_workers cfg) with (a_workers args).
  destruct (a_workers args <? 0).
  { destruct (_cleanup_progress_bars cfg s2) as [[] s3]. done. }
  destruct ((a_workers args =? 0) && _); [done|].
  destruct (_cleanup_progress_bars cfg s2) as [[] s3]. done.
Qed.

(** The claim as stated fails: the only job of the batch fails, and the
    exit status is 0. *)
Lemma C4_counterexample :
  let '(status, s') :=
    run_script py_lib (failing_world RequestError) base_args (initial_state ∅) in
  failed (stats s') = 1 ∧ successful (stats s') = 0 ∧ status = Some 0.
Proof. vm_compute. done. Qed.
(** * Further properties of the downloader *)

(** ** The size probe *)

(** [fetch_file_size] never reports less than 1 KiB, whatever the server
    answers; it changes no counter and no file and sends no download
    request. *)
Theorem fetch_file_size_at_least_1KiB lib w cfg url s :
  let '(size, s') := fetch_file_size lib w cfg url s in
  1024 <= size ∧ calm no_stream s s'.
Proof.
  pose proof (fetch_file_size_calm lib w cfg url s) as Hcalm.
  assert (1024 <= fst (fetch_file_size lib w cfg url s)) as Hsize.
  { unfold fetch_file_size, request_head, request_probe. unfold bind at 1.
    destruct (_enhance_headers lib w cfg url s) as [h s1].
    munfold. cbn.
    repeat match goal with
    | |- context [match ?x with _ => _ end] =>
        match type of x with option _ => destruct x; cbn end
    end.
    all: unfold MiB; lia. }
  destruct (fetch_file_size lib w cfg url s) as [size s']. done.
Qed.

(** ** Request headers *)

(** [_enhance_headers] keeps every header the user configured and makes
    sure the five browser headers are present. *)
Theorem enhance_headers_keeps_user_headers lib w cfg url s :
  let h := fst (_enhance_headers lib w cfg url s) in
  (∀ k v, headers cfg !! k = Some v → h !! k = Some v) ∧
  is_Some (h !! "User-Agent") ∧ is_Some (h !! "Accept") ∧
  is_Some (h !! "Accept-Language") ∧ is_Some (h !! "Accept-Encoding") ∧
  is_Some (h !! "Referer").
Proof.
  assert (∀ k v (h : Headers) k' v', h !! k' = Some v' → set_default k v h !! k' = Some v')
    as Hkeep.
  { intros k v h k' v' H. unfold set_default. destruct (h !! k) eqn:Hk; [done|].
    rewrite lookup_insert_ne; [done|]. intros ->. congruence. }
  assert (∀ k v (h : Headers), is_Some (set_default k v h !! k)) as Hset.
  { intros k v h. unfold set_default. destruct (h !! k) eqn:Hk; [by rewrite Hk|].
    rewrite lookup_insert_eq. eauto. }
  unfold _enhance_headers. munfold.
  destruct (headers cfg !! "User-Agent") as [ua|] eqn:Hua; cbn.
  - repeat split.
    + intros k v Hk. by do 4 apply Hkeep.
    + eexists. do 4 apply Hkeep. done.
    + destruct (Hset "Accept" "*/*" (headers cfg)) as [x Hx].
      eexists. do 3 apply Hkeep. done.
    + match goal with |- context [set_default "Accept-Language" ?v ?h] =>
        destruct (Hset "Accept-Language" v h) as [x Hx] end.
      eexists. do 2 apply Hkeep. done.
    + match goal with |- context [set_default "Accept-Encoding" ?v ?h] =>
        destruct (Hset "Accept-Encoding" v h) as [x Hx] end.
      eexists. apply Hkeep. done.
    + apply Hset.
  - repeat split.
    + intros k v Hk. do 4 apply Hkeep. rewrite lookup_insert_ne; [done|].
      intros <-. congruence.
    + eexists. do 4 apply Hkeep. by rewrite lookup_insert_eq.
    + match goal with |- context [set_default "Accept" ?v ?h] =>
        destruct (Hset "Accept" v h) as [x Hx] end.
      eexists. do 3 apply Hkeep. done.
    + match goal with |- context [set_default "Accept-Language" ?v ?h] =>
        destruct (Hset "Accept-Language" v h) as [x Hx] end.
      eexists. do 2 apply Hkeep. done.
    + match goal with |- context [set_default "Accept-Encoding" ?v ?h] =>
        destruct (Hset "Accept-Encoding" v h) as [x Hx] end.
      eexists. apply Hkeep. done.
    + apply Hset.
Qed.

(** Also when resume is on and a non-empty partial file exists, so that
    [_get_resume_header] yields [Range: bytes=M-], the request that
    [download_file] sends has the headers of [_enhance_headers]: it carries a
    [Range] header only if the user configured one. *)
Theorem resume_header_not_sent lib w cfg url l s content :
  resume cfg = true →
  files s !! temp_path l = Some content →
  content ≠ [] →
  headers cfg !! "Range" = None →
  fst (_get_resume_header cfg url (temp_path l) s) !! "Range"
    = Some ("bytes=" +:+ pretty (Z.of_nat (length content)) +:+ "-") ∧
  let '(response, s') := send_request lib w cfg url l s in
  ∃ h n, trace s' = trace s ++ [EvStreamGet url h] ∧ h !! "Range" = None ∧
         response = w_stream w n url h.
Proof.
  intros Hres Hfile Hne Hnone. split.
  - assert ((0 <? Z.of_nat (length content)) = true) as Hpos.
    { apply Z.ltb_lt. destruct content; [done|]. cbn [length]. lia. }
    unfold _get_resume_header. munfold. cbn. rewrite Hfile, Hres. cbn.
    rewrite Hpos. cbn. by rewrite lookup_insert_eq.
  - pose proof (send_request_spec lib w cfg url l s) as H.
    destruct (send_request lib w cfg url l s) as [response s'].
    destruct H as (h & n & -> & Hrange & Htr & _). exists h, n.
    rewrite Hrange. done.
Qed.

Lemma resume_header_not_sent_witness :
  fst (_get_resume_header base_config url1 (temp_path locals1) (initial_state partial_500))
    !! "Range"
    = Some ("bytes=" +:+ pretty (Z.of_nat (length (take 500 resource_1500))) +:+ "-") ∧
  let '(response, s') :=
    send_request py_lib (range_server resource_1500 [500]) base_config url1 locals1
      (initial_state partial_500) in
  ∃ h n, trace s' = trace (initial_state partial_500) ++ [EvStreamGet url1 h] ∧
         h !! "Range" = None ∧
         response = w_stream (range_server resource_1500 [500]) n url1 h.
Proof.
  apply (resume_header_not_sent py_lib (range_server resource_1500 [500]) base_config
           url1 locals1 (initial_state partial_500) (take 500 resource_1500)).
  - reflexivity.
  - reflexivity.
  - discriminate.
  - reflexivity.
Defined.
(** ** More on the origin throttle *)

Lemma Qltb_true x y : Qltb x y = true ↔ (x < y)%Q.
Proof.
  unfold Qltb. rewrite negb_true_iff. split.
  - intros H. apply Qnot_le_lt. intros Hle. apply Qle_bool_iff in Hle. congruence.
  - intros H. destruct (Qle_bool y x) eqn:Hle; [|done].
    apply Qle_bool_iff in Hle. lra.
Qed.

Lemma Qmax_ge_l x y : (x <= Qmax x y)%Q.
Proof. apply Q.le_max_l. Qed.

(** The gate keeps its promise: once [_check_domain_cooldown] returns for
    an origin last accessed at [last] with cooldown [cd], at least [cd]
    seconds have gone by since [last]; it waits only when it has to (and then
    exactly the remainder), and it records the time of the new access. *)
Theorem throttle_gate_spacing lib w cfg url r s last cd :
  urlparse lib url = Some r →
  domain_cooldown s !! netloc r = Some (last, cd) →
  let s' := snd (_check_domain_cooldown lib w cfg url s) in
  (last + cd <= clock s')%Q ∧
  fst <$> domain_cooldown s' !! netloc r = Some (clock s') ∧
  trace s' = trace s ++
    (if Qltb (clock s - last) cd then [EvSleep (cd - (clock s - last))%Q] else []).
Proof.
  intros Hr Hdc. unfold _check_domain_cooldown. rewrite Hr. munfold. cbn.
  rewrite Hdc. cbn.
  destruct (Qltb (clock s - last) cd) eqn:Hlt; cbn; rewrite Hdc; cbn.
  - rewrite lookup_insert_eq. repeat split; try done.
    pose proof (Qmax_ge_l (cd - (clock s - last)) 0). lra.
  - rewrite lookup_insert_eq, app_nil_r. repeat split; try done.
    destruct (Qle_bool cd (clock s - last)) eqn:Hle.
    + apply Qle_bool_iff in Hle. lra.
    + unfold Qltb in Hlt. rewrite Hle in Hlt. done.
Qed.

Lemma throttle_gate_spacing_witness :
  let s' := snd (_check_domain_cooldown py_lib (failing_world RequestError) base_config
                   url1 throttled_state) in
  (1000 + (1 # 10) <= clock s')%Q ∧
  fst <$> domain_cooldown s' !! "a.example" = Some (clock s') ∧
  trace s' = trace throttled_state ++
    (if Qltb (clock throttled_state - 1000) (1 # 10)
     then [EvSleep ((1 # 10) - (clock throttled_state - 1000))%Q] else []).
Proof.
  apply (throttle_gate_spacing py_lib (failing_world RequestError) base_config url1
           {| scheme := "http"; netloc := "a.example"; path := "/f.bin" |}
           throttled_state 1000 (1 # 10)).
  - reflexivity.
  - reflexivity.
Defined.

(** A 403 or 429 answer sets the cooldown of the origin to
    [min(30 + 10 * retry_count, 300)] seconds, which is above the 30 s cap of
    the ordinary growth; other errors leave the cooldowns alone. *)
Theorem policy_rejection_escalates_cooldown lib w cfg url update_progress e l s :
  0 <= retry_count l →
  let s' := snd (handle_error lib w cfg url update_progress e l s) in
  if is_policy_rejection e then
    ∃ c, domain_cooldown s' !! netloc (parsed lib url) = Some (clock s, inject_Z c) ∧
         c = Z.min (30 + (retry_count l + 1) * 10) 300 ∧ 40 <= c <= 300 ∧
         (cooldown_cap < inject_Z c)%Q
  else domain_cooldown s' = domain_cooldown s.
Proof.
  intros Hrc. unfold handle_error, _close_progress_bar. munfold.
  destruct (is_policy_rejection e); cbn.
  - assert (40 <= Z.min (30 + (retry_count l + 1) * 10) 300 <= 300) as Hc by lia.
    split_tests; rewrite lookup_insert_eq; eexists; repeat split; try lia.
    all: unfold cooldown_cap; apply (Qlt_le_trans _ (inject_Z 40)); [done|].
    all: rewrite <- Zle_Qle; lia.
  - split_tests; done.
Qed.

Lemma policy_rejection_escalates_cooldown_witness :
  let s' := snd (handle_error py_lib (failing_world (HTTPStatusError 429)) base_config
                   url1 true (HTTPStatusError 429) locals1 (initial_state ∅)) in
  if is_policy_rejection (HTTPStatusError 429) then
    ∃ c, domain_cooldown s' !! netloc (parsed py_lib url1)
           = Some (clock (initial_state ∅), inject_Z c) ∧
         c = Z.min (30 + (retry_count locals1 + 1) * 10) 300 ∧ 40 <= c <= 300 ∧
         (cooldown_cap < inject_Z c)%Q
  else domain_cooldown s' = domain_cooldown (initial_state ∅).
Proof.
  apply (policy_rejection_escalates_cooldown py_lib (failing_world (HTTPStatusError 429))
           base_config url1 true (HTTPStatusError 429) locals1 (initial_state ∅)).
  cbn. lia.
Defined.

(** A cooldown above the cap, such as one set after a 403 or 429, does
    not survive the next pass through the gate: the pass stores the cap,
    so the cooldown of that origin goes down. *)
Theorem cooldown_above_cap_is_reset lib w cfg url r s c :
  urlparse lib url = Some r →
  current_cooldown (netloc r) s = Some c →
  (cooldown_cap < c)%Q →
  ∃ c', current_cooldown (netloc r) (snd (_check_domain_cooldown lib w cfg url s))
          = Some c' ∧
        (c' == cooldown_cap)%Q ∧ (c' < c)%Q.
Proof.
  intros Hr Hc Hcap. exists (next_cooldown c).
  split; [by eapply check_cooldown_known|].
  assert (next_cooldown c == cooldown_cap)%Q as Heq.
  { unfold next_cooldown. apply Q.min_r. unfold growth_factor, cooldown_cap in *. lra. }
  split; [done|]. rewrite Heq. done.
Qed.

Lemma cooldown_above_cap_is_reset_witness :
  let s := set_domain_cooldown (fun _ => {[ "a.example" := (1000%Q, 40%Q) ]})
             (initial_state ∅) in
  ∃ c', current_cooldown "a.example"
          (snd (_check_domain_cooldown py_lib (failing_world RequestError) base_config
                  url1 s)) = Some c' ∧
        (c' == cooldown_cap)%Q ∧ (c' < 40)%Q.
Proof.
  apply (cooldown_above_cap_is_reset py_lib (failing_world RequestError) base_config url1
           {| scheme := "http"; netloc := "a.example"; path := "/f.bin" |}
           (set_domain_cooldown (fun _ => {[ "a.example" := (1000%Q, 40%Q) ]})
              (initial_state ∅)) 40).
  - reflexivity.
  - reflexivity.
  - reflexivity.
Defined.
(** ** What is written to disk *)



(** ** A download that goes well *)


(** ** The retry loop as a whole *)

(** One pass of the loop either asks for a retry, without counting
    anything, or returns; a returned job is counted exactly once, except
    when the rename and its fallback failed (the result is then the path of
    the partial file, and nothing is counted). *)
Lemma attempt_counters lib w cfg url update_progress l s :
  let '(step, s') := attempt lib w cfg url update_progress l s in
  match step with
  | Continue l' =>
      retry_count l' = retry_count l + 1 ∧ retry_count l + 1 <= max_retries cfg ∧
      file_path l' = file_path l ∧ temp_path l' = temp_path l ∧
      not_counted s s'
  | Return (success, p, _) =>
      counted_as success s s'
      ∨ (success = true ∧ p = temp_path l ∧ not_counted s s' ∧
         ∃ n, fallback_failed w n)
  end.
Proof.
  unfold counted_as, not_counted, fallback_failed.
  destruct (attempt lib w cfg url update_progress l s) as [step s'] eqn:Hatt.
  destruct step as [[[success p] b]|l'].
  - revert Hatt. unfold attempt. unfold bind at 1.
    use_spec send_request_spec send_request.
    destruct Hspec as (h & n & -> & _ & Htr & Hst & _).
    destruct (r_error (w_stream w n url h)) as [e|].
    + use_spec handle_error_spec handle_error.
      destruct Hspec as (_ & _ & Hspec).
      destruct (max_retries cfg <? retry_count l + 1);
        [|destruct (float_overflow_exponent <=? retry_count l + 1)].
      * destruct Hspec as (-> & Hst' & _). intros [= <- <- <- <-].
        rewrite Hst', Hst. cbn. left. done.
      * destruct Hspec as (-> & Hst' & _). intros [= <- <- <- <-].
        rewrite Hst', Hst. cbn. left. done.
      * destruct Hspec as (-> & _). intros [=].
    + unfold bind at 1.
      use_spec receive_body_spec receive_body. destruct p0 as [fsz d'].
      destruct Hspec as (_ & _ & _ & _ & Hsu & Hfa & Hsk & _).
      destruct (r_abort (w_stream w n url h)) as [e|].
      * use_spec handle_error_spec handle_error.
        destruct Hspec as (_ & _ & Hspec). cbn [retry_count with_progress] in Hspec.
        destruct (max_retries cfg <? retry_count l + 1);
          [|destruct (float_overflow_exponent <=? retry_count l + 1)].
        -- destruct Hspec as (-> & Hst' & _). intros [= <- <- <- <-].
           rewrite Hst'. cbn. rewrite Hsu, Hfa, Hsk, Hst. left. done.
        -- destruct Hspec as (-> & Hst' & _). intros [= <- <- <- <-].
           rewrite Hst'. cbn. rewrite Hsu, Hfa, Hsk, Hst. left. done.
        -- destruct Hspec as (-> & _). intros [=].
      * use_spec finish_download_spec finish_download.
        destruct Hspec as (_ & _ & _ & Hspec).
        destruct (_ || _) eqn:Hmoved.
        -- destruct Hspec as (-> & Hst' & _). intros [= <- <- <- <-].
           rewrite Hst'. cbn. rewrite Hsu, Hfa, Hsk, Hst. left. done.
        -- destruct Hspec as (-> & Hst' & _). intros [= <- <- <- <-].
           rewrite Hst'. rewrite Hsu, Hfa, Hsk, Hst. right.
           repeat split; try done. exists (tick s1).
           apply orb_false_iff in Hmoved as [Hren Hfb].
           apply andb_false_iff in Hfb. done.
  - apply attempt_continue in Hatt. destruct_and!. done.
Qed.

(** With enough fuel the loop never ends for lack of it: it returns a
    tuple whenever [retry_count <= max_retries] on entry. *)
Lemma stream_loop_returns lib w cfg url update_progress fuel :
  ∀ l s,
  retry_count l <= max_retries cfg →
  fuel = Z.to_nat (max_retries cfg + 1 - retry_count l) →
  let '(r, s') := stream_loop lib w cfg fuel url update_progress l s in
  ∃ success p b, r = Some (success, p, b) ∧
    (counted_as success s s'
     ∨ (success = true ∧ p = temp_path l ∧ not_counted s s' ∧
        ∃ n, fallback_failed w n)).
Proof.
  induction fuel as [|fuel IH]; intros l s Hle Hfuel; [lia|].
  cbn [stream_loop]. rewrite (proj2 (Z.leb_le _ _) Hle). unfold bind.
  pose proof (attempt_counters lib w cfg url update_progress l s) as Hatt.
  destruct (attempt lib w cfg url update_progress l s) as [step s1].
  destruct step as [[[success p] b]|l'].
  - unfold ret. exists success, p, b. done.
  - destruct Hatt as (Hrc & Hmax & Hfp & Htp & Hsk & Hsu & Hfa).
    specialize (IH l' s1).
    destruct (stream_loop lib w cfg fuel url update_progress l' s1) as [r s'].
    destruct IH as (success & p & b & -> & Hcases); [lia|lia|].
    exists success, p, b. split; [done|].
    unfold counted_as, not_counted in *. rewrite <- Hsk, <- Hsu, <- Hfa, <- Htp.
    done.
Qed.

(** [download_file] returns a tuple whenever [max_retries] is not negative,
    and then exactly one of four things has happened.  The job failed, and
    [failed] alone grew, by one.  Or it succeeded, and [successful] alone
    grew, by one.  Or it was skipped, with zero bytes, and [skipped] alone
    grew, by one.  Or it is returned as a success under the path of the
    partial file and no counter changed, which happens only when a rename
    failed and the copy or the removal of its fallback failed too. *)
Theorem download_file_counts_once lib w cfg url filename update_progress s :
  0 <= max_retries cfg →
  let '(r, s') := download_file lib w cfg url filename update_progress s in
  ∃ success p b, r = Some (success, p, b) ∧
    ((success = false ∧
      failed (stats s') = failed (stats s) + 1 ∧
      successful (stats s') = successful (stats s) ∧
      skipped (stats s') = skipped (stats s))
     ∨ (success = true ∧
        successful (stats s') = successful (stats s) + 1 ∧
        failed (stats s') = failed (stats s) ∧
        skipped (stats s') = skipped (stats s))
     ∨ (success = true ∧ b = 0 ∧
        skipped (stats s') = skipped (stats s) + 1 ∧
        successful (stats s') = successful (stats s) ∧
        failed (stats s') = failed (stats s))
     ∨ (success = true ∧
        p = part_path (final_path lib w cfg url filename s) ∧
        successful (stats s') = successful (stats s) ∧
        failed (stats s') = failed (stats s) ∧
        skipped (stats s') = skipped (stats s) ∧
        ∃ n, fallback_failed w n)).
Proof.
  intros Hmax. unfold download_file.
  destruct (_validate_url lib url); cbn [negb].
  2: { munfold. cbn. exists false, "", 0. split; [done|]. left. done. }
  unfold bind.
  pose proof (prepare_spec lib w cfg url filename update_progress s) as Hprep.
  destruct (prepare lib w cfg url filename update_progress s) as [[o|l] s1].
  - unfold ret. destruct (bool_decide _).
    + destruct Hprep as ((name & [= ->]) & Hst & _). rewrite Hst. cbn.
      eexists _, _, _. split; [done|]. right. right. left. done.
    + cbn zeta in Hprep. destruct (_ && _).
      * destruct Hprep as ([= ->] & Hst & _). rewrite Hst. cbn.
        eexists _, _, _. split; [done|]. right. right. left. done.
      * destruct Hprep as (_ & sz & -> & Hst). rewrite Hst. cbn.
        eexists _, _, _. split; [done|]. right. left. done.
  - assert (retry_count l = 0 ∧ stats s1 = stats s ∧
            temp_path l = part_path (final_path lib w cfg url filename s))
      as (Hrc & Hst & Htp).
    { destruct (bool_decide _); [by destruct Hprep as ((? & ?) & _)|].
      cbn zeta in Hprep. destruct (_ && _); [by destruct Hprep|].
      by destruct Hprep as (_ & ? & ? & _ & _ & ?). }
    pose proof (stream_loop_returns lib w cfg url update_progress
                  (Z.to_nat (max_retries cfg + 1 - retry_count l)) l s1
                  ltac:(lia) eq_refl) as Hloop.
    destruct (stream_loop _ _ _ _ _ _ _ _) as [r s'].
    destruct Hloop as (success & p & b & -> & Hcases).
    unfold counted_as, not_counted in Hcases. rewrite Hst, Htp in Hcases.
    exists success, p, b. split; [done|].
    destruct Hcases as [(Hsk & Hc)|(-> & -> & (Hsk & Hsu & Hfa) & Hn)].
    + destruct success; destruct Hc as [Hsu Hfa]; [right; left|left]; done.
    + right. right. right. done.
Qed.

Lemma download_file_counts_once_witness :
  let w := breaking_world_100 in
  let cfg := small_chunk_config in
  let s := initial_state ∅ in
  let '(r, s') := download_file py_lib w cfg url1 None true s in
  ∃ success p b, r = Some (success, p, b) ∧
    ((success = false ∧
      failed (stats s') = failed (stats s) + 1 ∧
      successful (stats s') = successful (stats s) ∧
      skipped (stats s') = skipped (stats s))
     ∨ (success = true ∧
        successful (stats s') = successful (stats s) + 1 ∧
        failed (stats s') = failed (stats s) ∧
        skipped (stats s') = skipped (stats s))
     ∨ (success = true ∧ b = 0 ∧
        skipped (stats s') = skipped (stats s) + 1 ∧
        successful (stats s') = successful (stats s) ∧
        failed (stats s') = failed (stats s))
     ∨ (success = true ∧
        p = part_path (final_path py_lib w cfg url1 None s) ∧
        successful (stats s') = successful (stats s) ∧
        failed (stats s') = failed (stats s) ∧
        skipped (stats s') = skipped (stats s) ∧
        ∃ n, fallback_failed w n)).
Proof.
  apply (download_file_counts_once py_lib breaking_world_100 small_chunk_config url1
           None true (initial_state ∅)).
  cbn. lia.
Defined.

(** A negative [max_retries] means no attempt at all: a job that reaches
    the loop sends no download request and [download_file] falls off its end
    (Python's [None]); the task then reports the job as failed. *)
Theorem negative_max_retries_never_downloads lib w cfg url filename s l s1 :
  _validate_url lib url = true →
  max_retries cfg < 0 →
  prepare lib w cfg url filename true s = (inr l, s1) →
  download_file lib w cfg url filename true s = (None, s1) ∧
  stream_requests (trace s1) = stream_requests (trace s) ∧
  let '(out, s') := limited_download lib w cfg url filename s in
  out = (url, false, "", 0) ∧ failed (stats s') = failed (stats s) + 1.
Proof.
  intros Hvalid Hneg Hprep.
  pose proof (prepare_spec lib w cfg url filename true s) as Hspec.
  rewrite Hprep in Hspec.
  assert (retry_count l = 0 ∧ stats s1 = stats s ∧
          stream_requests (trace s1) = stream_requests (trace s)) as (Hrc & Hst & Htr).
  { destruct (bool_decide _); [by destruct Hspec as ((? & ?) & _)|].
    cbn zeta in Hspec. destruct (_ && _); [by destruct Hspec|].
    destruct Hspec as ((t & -> & Hno) & ? & ? & _).
    rewrite stream_requests_app, (stream_requests_none t) by done.
    repeat split; try done; lia. }
  assert (download_file lib w cfg url filename true s = (None, s1)) as Hdl.
  { unfold download_file. rewrite Hvalid. cbn [negb]. unfold bind. rewrite Hprep.
    destruct (Z.to_nat _) as [|fuel]; cbn [stream_loop].
    all: rewrite (proj2 (Z.leb_gt _ _)) by lia; done. }
  split; [done|]. split; [done|].
  unfold limited_download. unfold bind at 1. rewrite Hdl.
  unfold _close_progress_bar. munfold. cbn. rewrite Hst. done.
Qed.

Lemma negative_max_retries_never_downloads_witness :
  let cfg := {| output_dir := "downloads"; max_workers := 5; chunk_size := MiB;
                max_retries := -1;
                headers := {[ "User-Agent" := default_user_agent ]};
                resume := true; overwrite := false; default_suffix := None;
                force_suffix := false; filename_map := ∅; random_delay := false;
                min_delay := 1; max_delay := 5; continue_from_state := false;
                use_tqdm := true |} in
  let w := range_server resource_1500 [] in
  let s := initial_state ∅ in
  let l := match fst (prepare py_lib w cfg url1 None true s) with
           | inr l => l | inl _ => locals1 end in
  let s1 := snd (prepare py_lib w cfg url1 None true s) in
  download_file py_lib w cfg url1 None true s = (None, s1) ∧
  stream_requests (trace s1) = stream_requests (trace s) ∧
  let '(out, s') := limited_download py_lib w cfg url1 None s in
  out = (url1, false, "", 0) ∧ failed (stats s') = failed (stats s) + 1.
Proof.
  intros cfg w s l s1.
  apply (negative_max_retries_never_downloads py_lib w cfg url1 None s l s1).
  - reflexivity.
  - cbn. lia.
  - vm_compute. reflexivity.
Defined.
(** ** The jobs of a batch *)

(** Every key of the map [download_batch] returns is a valid URL of the
    input and, when continuing from a saved state, one that was not yet
    completed when the batch started. *)
Theorem download_batch_keys lib w cfg urls filenames s results url p :
  (download_batch lib w cfg urls filenames s).1 = BatchReturned results →
  results !! url = Some p →
  url ∈ urls ∧ _validate_url lib url = true ∧
  (continue_from_state cfg = true → url ∉ completed_urls (stats s)).
Proof.
  rewrite download_batch_outcome. cbn zeta.
  set (jobs := batch_jobs lib cfg (completed_urls (stats s)) urls filenames).
  set (outs := task_outcomes lib w cfg jobs 0 (Z.of_nat (length jobs)) (batch_start cfg s)).
  intros Hret Hlook.
  assert (results = foldl collect ∅ outs ∨ results = ∅) as [->| ->].
  { destruct (List.filter (_validate_url lib) urls); [right; congruence|].
    destruct (max_workers cfg <? 0); [done|].
    destruct (_ && _); [done|]. left. congruence. }
  2: by rewrite lookup_empty in Hlook.
  rewrite foldl_collect_lookup, lookup_empty in Hlook.
  destruct (last_success url outs) as [p'|] eqn:Hlast; [|done].
  apply last_success_elem in Hlast as [b Hin].
  assert (url ∈ result_url <$> outs) as Hurl.
  { apply list_elem_of_fmap. by exists (url, true, p', b). }
  unfold outs in Hurl. rewrite task_outcomes_urls in Hurl.
  unfold jobs in Hurl. rewrite batch_jobs_fst in Hurl. unfold batch_urls in Hurl.
  apply list_elem_of_In, filter_In in Hurl as [Hurl Hkeep].
  apply filter_In in Hurl as [Hurl Hvalid].
  split; [by apply list_elem_of_In|]. split; [done|].
  intros Hcont. rewrite Hcont in Hkeep. cbn in Hkeep.
  apply negb_true_iff, bool_decide_eq_false in Hkeep. done.
Qed.

Lemma download_batch_keys_witness :
  url1 ∈ [url1] ∧ _validate_url py_lib url1 = true ∧
  (continue_from_state base_config = true →
   url1 ∉ completed_urls (stats (initial_state ∅))).
Proof.
  apply (download_batch_keys py_lib (range_server resource_1500 []) base_config [url1]
           None (initial_state ∅) {[ url1 := "downloads/f.bin" ]} url1 "downloads/f.bin").
  - vm_compute. reflexivity.
  - vm_compute. reflexivity.
Defined.

(** A batch without any valid URL, the empty batch included, returns the
    empty map and does nothing: no counter is reset, nothing is saved. *)
Theorem download_batch_nothing_valid lib w cfg urls filenames s :
  List.filter (_validate_url lib) urls = [] →
  download_batch lib w cfg urls filenames s = (BatchReturned ∅, s).
Proof.
  intros Hnone. unfold download_batch. destruct urls as [|u0 urls0] eqn:Hurls; [done|].
  rewrite <- Hurls in *.
  pose proof (filter_valid_fst lib urls filenames) as Hvalid.
  destruct (filter_valid lib urls filenames) as [urls1 filenames1]. cbn in Hvalid.
  rewrite Hnone in Hvalid. by subst urls1.
Qed.

Lemma download_batch_nothing_valid_witness :
  download_batch py_lib (range_server resource_1500 []) base_config
      ["ftp://a.example/f.bin"; "http:///nohost"] None (initial_state ∅)
    = (BatchReturned ∅, initial_state ∅).
Proof.
  apply (download_batch_nothing_valid py_lib (range_server resource_1500 []) base_config
           ["ftp://a.example/f.bin"; "http:///nohost"] None (initial_state ∅)).
  reflexivity.
Defined.
(** ** A URL that is already completed *)

(** For a valid URL in [completed_urls], [download_file] returns success
    with zero bytes and its only effect is [skipped += 1]: no wait, no
    request, no random draw, no change to the throttle or to any file. *)
Theorem completed_url_is_skipped_without_effect lib w cfg url filename update_progress s :
  _validate_url lib url = true →
  url ∈ completed_urls (stats s) →
  ∃ name,
    download_file lib w cfg url filename update_progress s
      = (Some (true, path_join (output_dir cfg) name, 0), set_stats add_skipped s) ∧
    (truthy filename = true → filename = Some name).
Proof.
  intros Hvalid Hdone. unfold download_file, prepare. rewrite Hvalid. cbn [negb].
  munfold. cbn. rewrite bool_decide_eq_true_2 by done. cbn.
  destruct filename as [f|]; cbn.
  - destruct (String.eqb f ""); cbn.
    + rewrite (surjective_pairing (_get_filename_from_url _ _ _ _)).
      rewrite get_filename_from_url_state. cbn. eexists. split; [done|]. done.
    + exists f. done.
  - rewrite (surjective_pairing (_get_filename_from_url _ _ _ _)).
    rewrite get_filename_from_url_state. cbn. eexists. split; [done|]. done.
Qed.

Lemma completed_url_is_skipped_without_effect_witness :
  let s := set_stats (add_completed url1) (initial_state ∅) in
  ∃ name,
    download_file py_lib (range_server resource_1500 []) base_config url1
        (Some "g.bin") true s
      = (Some (true, path_join (output_dir base_config) name, 0),
         set_stats add_skipped s) ∧
    (truthy (Some "g.bin") = true → Some "g.bin" = Some name).
Proof.
  apply (completed_url_is_skipped_without_effect py_lib (range_server resource_1500 [])
           base_config url1 (Some "g.bin") true
           (set_stats (add_completed url1) (initial_state ∅))).
  - reflexivity.
  - vm_compute. reflexivity.
Defined.

(** ** File names *)

(** With [force_suffix] and a non-empty default suffix, a file name passed
    by the caller gets its extension replaced by the suffix (with a leading
    dot added when missing), and no request is made to find out the content
    type. *)
Theorem forced_suffix_replaces_extension lib w cfg url name suffix s :
  force_suffix cfg = true →
  default_suffix cfg = Some suffix →
  suffix ≠ "" →
  resolve_filename lib w cfg url (Some name) s
    = (fst (splitext lib name)
       +:+ (if startswith suffix "." then suffix else "." +:+ suffix), s).
Proof.
  intros Hforce Hsuffix Hne. unfold resolve_filename. rewrite Hforce, Hsuffix. cbn.
  apply String.eqb_neq in Hne. rewrite Hne. cbn. munfold. rewrite andb_false_r. done.
Qed.

Lemma forced_suffix_replaces_extension_witness :
  let cfg := {| output_dir := "downloads"; max_workers := 5; chunk_size := MiB;
                max_retries := 3; headers := ∅;
                resume := true; overwrite := false; default_suffix := Some "mp4";
                force_suffix := true; filename_map := ∅; random_delay := false;
                min_delay := 1; max_delay := 5; continue_from_state := false;
                use_tqdm := true |} in
  resolve_filename py_lib (range_server resource_1500 []) cfg url1 (Some "clip.bin")
      (initial_state ∅)
    = (fst (splitext py_lib "clip.bin")
       +:+ (if startswith "mp4" "." then "mp4" else "." +:+ "mp4"), initial_state ∅).
Proof.
  intros cfg.
  apply (forced_suffix_replaces_extension py_lib (range_server resource_1500 []) cfg url1
           "clip.bin" "mp4" (initial_state ∅)).
  - reflexivity.
  - reflexivity.
  - discriminate.
Defined.

(** A name found in [filename_map] is used as it is: for a job without an
    explicit file name it is the name the file is saved under whenever
    [force_suffix] is set, whatever its extension, and no request is made. *)
Theorem mapped_name_bypasses_forced_suffix lib w cfg url name s :
  filename_map cfg !! url = Some name →
  force_suffix cfg = true →
  resolve_filename lib w cfg url None s = (name, s).
Proof.
  intros Hmap Hforce. unfold resolve_filename, _get_filename_from_url.
  rewrite Hmap, Hforce. munfold. by rewrite andb_false_r.
Qed.

Lemma mapped_name_bypasses_forced_suffix_witness :
  let cfg := {| output_dir := "downloads"; max_workers := 5; chunk_size := MiB;
                max_retries := 3; headers := ∅;
                resume := true; overwrite := false; default_suffix := Some "mp4";
                force_suffix := true; filename_map := {[ url1 := "movie.avi" ]};
                random_delay := false;
                min_delay := 1; max_delay := 5; continue_from_state := false;
                use_tqdm := true |} in
  resolve_filename py_lib (range_server resource_1500 []) cfg url1 None (initial_state ∅)
    = ("movie.avi", initial_state ∅).
Proof.
  intros cfg.
  apply (mapped_name_bypasses_forced_suffix py_lib (range_server resource_1500 []) cfg
           url1 "movie.avi" (initial_state ∅)).
  - reflexivity.
  - reflexivity.
Defined.
(** ** File names stay with their URLs *)

Lemma select_pairs_from (keep : string → bool) (fns : list string) :
  fns ≠ [] →
  ∀ urls k,
  length (drop k fns) = length urls →
  let kept := List.filter (λ '(_, url), keep url)
                (imap (λ i url, ((k + i)%nat, url)) urls) in
  zip (snd <$> kept)
      (omap (λ '(i, _), if truthy_list (Some fns) then default [] (Some fns) !! i else None)
            kept)
    = List.filter (λ '(url, _), keep url) (zip urls (drop k fns)) ∧
  length (omap (λ '(i, _), if truthy_list (Some fns)
                           then default [] (Some fns) !! i else None) kept)
    = length (snd <$> kept).
Proof.
  intros Hne. assert (truthy_list (Some fns) = true) as -> by (by destruct fns).
  cbn [from_option]. unfold id. induction urls as [|u urls IH]; intros k Hlen; [done|].
  destruct (drop k fns) as [|n rest] eqn:Hdrop; [done|].
  assert (fns !! k = Some n) as Hk.
  { pose proof (lookup_drop fns k 0) as H. rewrite Hdrop, Nat.add_0_r in H. done. }
  assert (drop (S k) fns = rest) as Hrest.
  { pose proof (drop_S fns n k Hk) as H. rewrite Hdrop in H. by simplify_eq. }
  cbn [imap]. rewrite Nat.add_0_r.
  rewrite (imap_ext _ (λ i url, ((S k + i)%nat, url)) urls)
    by (intros; cbn; f_equal; lia).
  specialize (IH (S k)). rewrite Hrest in IH. cbn in Hlen.
  destruct IH as [IHzip IHlen]; [lia|].
  cbn [List.filter zip zip_with]. destruct (keep u); cbn.
  - rewrite Hk. cbn. split; [f_equal; exact IHzip|f_equal; exact IHlen].
  - split; [exact IHzip|exact IHlen].
Qed.

(** When there is one file name per URL, dropping the invalid URLs keeps
    every remaining URL with its own file name: the jobs made from what
    [filter_valid] returns are the valid pairs of the input, in order. *)
Theorem filenames_stay_paired lib urls fns :
  length fns = length urls →
  let '(valid_urls, valid_filenames) := filter_valid lib urls (Some fns) in
  make_jobs valid_urls valid_filenames
    = (λ '(url, name), (url, Some name))
      <$> List.filter (λ '(url, _), _validate_url lib url) (zip urls fns).
Proof.
  intros Hlen. destruct urls as [|u urls]; [by destruct fns|].
  destruct fns as [|n fns]; [done|].
  remember (u :: urls) as us eqn:Hus. remember (n :: fns) as ns eqn:Hns.
  assert (ns ≠ []) as Hne by (by subst ns).
  assert (∀ (l : list (string * string)),
            make_jobs (l.*1) (Some (l.*2)) = (λ '(url, name), (url, Some name)) <$> l)
    as Hjobs.
  { intros l. unfold make_jobs. destruct l as [|[u1 n1] l]; [done|].
    cbn [truthy_list fmap list_fmap from_option fst snd]. unfold id.
    enough (∀ (l : list (string * string)) (pre : list string) k, length pre = k →
              imap (λ i url, (url, (pre ++ l.*2) !! (k + i)%nat)) (l.*1)
              = (λ '(url, name), (url, Some name)) <$> l) as H.
    { apply (H ((u1, n1) :: l) [] 0%nat). done. }
    clear. induction l as [|[u1 n1] l IH]; intros pre k Hk; [done|].
    cbn [fmap list_fmap imap fst snd]. f_equal.
    - rewrite Nat.add_0_r, lookup_app_r by lia. by rewrite Hk, Nat.sub_diag.
    - rewrite <- (IH (pre ++ [n1]) (S k)) by (rewrite length_app; cbn; lia).
      apply imap_ext. intros i x _. cbn. rewrite <- app_assoc. cbn. f_equal. f_equal. lia. }
  pose proof (select_pairs_from (_validate_url lib) ns Hne us 0%nat) as Hsel.
  unfold filter_valid.
  assert (select (_validate_url lib) us (Some ns)
          = ((List.filter (λ '(_, url), _validate_url lib url)
                (imap (λ i url, ((0 + i)%nat, url)) us)).*2,
             omap (λ '(i, _), if truthy_list (Some ns)
                              then default [] (Some ns) !! i else None)
               (List.filter (λ '(_, url), _validate_url lib url)
                  (imap (λ i url, ((0 + i)%nat, url)) us)))) as -> by done.
  cbn zeta in Hsel. rewrite drop_0 in Hsel. destruct Hsel as [Hzip Hlen']; [done|].
  set (vu := (List.filter _ _).*2) in *. set (vn := omap _ _) in *.
  assert (vu = (zip vu vn).*1 ∧ vn = (zip vu vn).*2) as [Hvu Hvn].
  { split; [by rewrite fst_zip by lia|by rewrite snd_zip by lia]. }
  destruct (length vu <? length us)%nat eqn:Hlt.
  - assert (truthy_list (Some ns) = true) as -> by (by subst ns).
    cbn iota beta. rewrite <- Hzip, <- Hjobs, <- Hvu, <- Hvn. done.
  - apply Nat.ltb_ge in Hlt.
    assert (List.filter (λ '(url, _), _validate_url lib url) (zip us ns) = zip us ns) as ->.
    { apply filter_all_length. rewrite <- Hzip, length_zip. rewrite length_zip. lia. }
    cbn iota beta. rewrite <- (Hjobs (zip us ns)). by rewrite fst_zip, snd_zip by lia.
Qed.

Lemma filenames_stay_paired_witness :
  let '(valid_urls, valid_filenames) :=
    filter_valid py_lib ["ftp://a.example/x"; url1] (Some ["x.bin"; "f.bin"]) in
  make_jobs valid_urls valid_filenames
    = (λ '(url, name), (url, Some name))
      <$> List.filter (λ '(url, _), _validate_url py_lib url)
            (zip ["ftp://a.example/x"; url1] ["x.bin"; "f.bin"]).
Proof.
  apply (filenames_stay_paired py_lib ["ftp://a.example/x"; url1] ["x.bin"; "f.bin"]).
  reflexivity.
Defined.
(** ** The backoff before a retry *)



(** With [max_retries] of 1024 or more, a job whose every download request
    ends in an exception does not use its retries up: at retry 1024 the
    backoff [2 ** 1024 + random.uniform(0, 2)] raises [OverflowError] inside
    the handler, and the outer handler ends the job.  The job has then sent
    1024 requests and waited 1023 times; it returns [(False, "", 0)] and
    [failed] has grown by one. *)
Theorem backoff_overflow_ends_job lib w cfg url filename update_progress s l s1 :
  _validate_url lib url = true →
  1024 <= max_retries cfg →
  prepare lib w cfg url filename update_progress s = (inr l, s1) →
  always_fails w url →
  let '(r, s') := download_file lib w cfg url filename update_progress s in
  ∃ t, r = Some (false, "", 0) ∧
       failed (stats s') = failed (stats s) + 1 ∧
       trace s' = trace s1 ++ t ∧
       stream_requests t = 1024%nat ∧ sleeps t = 1023%nat.
Proof.
  intros Hvalid Hmax Hprep Hfail. unfold download_file. rewrite Hvalid. cbn [negb].
  unfold bind.
  pose proof (prepare_spec lib w cfg url filename update_progress s) as Hspec.
  rewrite Hprep in *.
  destruct (bool_decide (url ∈ completed_urls (stats s))).
  { destruct Hspec as ((? & ?) & _). done. }
  cbn zeta in Hspec. destruct (_ && _); [by destruct Hspec|].
  destruct Hspec as (_ & Hrc & Hst & _).
  pose proof (stream_loop_overflow lib w cfg url update_progress 1023 Hfail Hmax
                (Z.to_nat (max_retries cfg + 1 - retry_count l)) l s1) as Hloop.
  destruct (stream_loop _ _ _ _ _ _ _ _) as [r s'].
  destruct Hloop as (t & -> & Hfa & Htr & Hreq & Hsl).
  - lia.
  - rewrite Hrc. reflexivity.
  - lia.
  - exists t. rewrite Hfa, Hst. done.
Qed.

Lemma backoff_overflow_ends_job_witness :
  let cfg := {| output_dir := "downloads"; max_workers := 5; chunk_size := MiB;
                max_retries := 2000;
                headers := {[ "User-Agent" := default_user_agent ]};
                resume := true; overwrite := false; default_suffix := None;
                force_suffix := false; filename_map := ∅; random_delay := false;
                min_delay := 1; max_delay := 5; continue_from_state := false;
                use_tqdm := true |} in
  let w := failing_world RequestError in
  let s := initial_state ∅ in
  let s1 := snd (prepare py_lib w cfg url1 None true s) in
  let '(r, s') := download_file py_lib w cfg url1 None true s in
  ∃ t, r = Some (false, "", 0) ∧
       failed (stats s') = failed (stats s) + 1 ∧
       trace s' = trace s1 ++ t ∧
       stream_requests t = 1024%nat ∧ sleeps t = 1023%nat.
Proof.
  intros cfg w s s1.
  apply (backoff_overflow_ends_job py_lib w cfg url1 None true s
           (match fst (prepare py_lib w cfg url1 None true s) with
            | inr l => l | inl _ => locals1 end) s1).
  - reflexivity.
  - cbn. lia.
  - vm_compute. reflexivity.
  - intros n h. left. cbn. eauto.
Defined.

(** ** The semaphore of a batch *)

(** [asyncio.Semaphore(self.max_workers)] is created after the URLs were
    filtered and the counters reset.  For a batch with a valid URL, a
    negative number of workers makes it raise, and with 0 workers and a job
    to run every task waits for ever; in both cases no job has run: the
    counters have been reset (unless continuing from a saved state) and the
    start time set, and nothing else has changed. *)
Theorem semaphore_without_permits lib w cfg urls filenames s :
  List.filter (_validate_url lib) urls ≠ [] →
  max_workers cfg <= 0 →
  batch_urls lib cfg (completed_urls (stats s)) urls ≠ [] ∨ max_workers cfg < 0 →
  download_batch lib w cfg urls filenames s
    = (if max_workers cfg <? 0 then BatchRaised else BatchBlocked, batch_start cfg s).
Proof.
  intros Hvalid Hworkers Hjobs.
  pose proof (batch_jobs_fst lib cfg (completed_urls (stats s)) urls filenames) as Hfst.
  revert Hfst. unfold download_batch, batch_jobs, batch_start.
  pose proof (filter_valid_fst lib urls filenames) as Hv.
  destruct urls as [|u0 urls0]; [done|].
  remember (u0 :: urls0) as urls eqn:Hurls. clear Hurls.
  destruct (filter_valid lib urls filenames) as [urls1 filenames1]. cbn in Hv.
  rewrite <- Hv in Hvalid. clear Hv.
  destruct urls1 as [|u1 urls1']; [done|].
  remember (u1 :: urls1') as urls1 eqn:Hurls1. clear Hurls1.
  unfold bind at 1. unfold gets at 1.
  destruct (filter_remaining cfg _ urls1 _) as [urls2 filenames2].
  cbn zeta. munfold. unfold gets. intros Hfst.
  destruct (max_workers cfg <? 0) eqn:Hneg.
  { destruct (continue_from_state cfg); done. }
  apply Z.ltb_ge in Hneg. destruct Hjobs as [Hjobs|Hjobs]; [|lia].
  rewrite <- Hfst in Hjobs.
  rewrite (proj2 (Z.eqb_eq _ _)) by lia.
  destruct (make_jobs urls2 filenames2); [done|].
  destruct (continue_from_state cfg); done.
Qed.

Lemma semaphore_without_permits_witness :
  let cfg := {| output_dir := "downloads"; max_workers := 0; chunk_size := MiB;
                max_retries := 3;
                headers := {[ "User-Agent" := default_user_agent ]};
                resume := true; overwrite := false; default_suffix := None;
                force_suffix := false; filename_map := ∅; random_delay := false;
                min_delay := 1; max_delay := 5; continue_from_state := false;
                use_tqdm := true |} in
  let w := range_server resource_1500 [] in
  let s := initial_state ∅ in
  download_batch py_lib w cfg [url1] None s
    = (if max_workers cfg <? 0 then BatchRaised else BatchBlocked, batch_start cfg s).
Proof.
  intros cfg w s.
  apply (semaphore_without_permits py_lib w cfg [url1] None s).
  - discriminate.
  - cbn. lia.
  - left. discriminate.
Defined.
